(** * jobs_done10: the jobs_done file reader, embedded and verified

    A shallow embedding of [source/python/jobs_done10/jobs_done_job.py]:
    the option tables, the check of option names and types, the branch
    filter, the job matrix ([CreateMatrixRows], [MatrixRow]), the
    per-row re-read of the file and the conditional options.

    Python values are modelled by [pyval]; a Python [dict] is an
    association list in the order in which the dict yields its items, which
    for the dicts of Python 2 is not the order in which they were put in
    ([Py2.dict_of] gives it); code that can raise returns a [result].  PyYAML, [re] and [str.format] are libraries the file calls
    but does not contain: [CreateFromYAML] takes them as a [Library], and
    what is proved holds for every one. *)

From Stdlib Require Import String Ascii List Arith ZArith Bool Lia Sorted.
From Stdlib Require Import Permutation.
Import ListNotations.
Local Open Scope string_scope.
Local Open Scope list_scope.
Set Warnings "-register-all".

(* ================================================================= *)
(** ** Exceptions and results *)

(** The Python types that [type(option_value)] can yield on parsed data. *)
Inductive pytype : Type :=
| TNone | TBool | TInt | TStr | TList | TDict.

Definition pytype_eqb (a b : pytype) : bool :=
  match a, b with
  | TNone, TNone | TBool, TBool | TInt, TInt
  | TStr, TStr | TList, TList | TDict, TDict => true
  | _, _ => false
  end.

(** Exceptions.  The first two are the classes the file defines; then the
    builtin ones its expressions can raise; [JobGeneratorAttributeError] is
    the one the test of the configurator expects; [LibraryError] stands for
    whatever PyYAML, [re] or [str.format] raise. *)
Inductive exn : Type :=
| UnknownJobsDoneFileOption (option_name : string)
| JobsDoneFileTypeError (option_name : string) (obtained_type expected_type : pytype)
| ValueError
| KeyError (key : string)
| IndexError
| TypeError
| AttributeError
| JobGeneratorAttributeError (option_name : string)
| LibraryError (what : string).

Inductive result (A : Type) : Type :=
| Ok (a : A)
| Raise (e : exn).
Arguments Ok {A} a.
Arguments Raise {A} e.

Definition bind {A B} (c : result A) (k : A -> result B) : result B :=
  match c with
  | Ok a => k a
  | Raise e => Raise e
  end.

Notation "x <- c ;; k" := (bind c (fun x => k))
  (at level 61, c at next level, right associativity).

(** A list comprehension whose element expression can raise: elements are
    evaluated left to right and the first exception aborts it. *)
Fixpoint mapM {A B} (f : A -> result B) (l : list A) : result (list B) :=
  match l with
  | [] => Ok []
  | a :: l' => b <- f a ;; bs <- mapM f l' ;; Ok (b :: bs)
  end.

(** A [for] loop that threads the object it mutates. *)
Fixpoint foldM {A S} (f : S -> A -> result S) (l : list A) (s : S) : result S :=
  match l with
  | [] => Ok s
  | a :: l' => s' <- f s a ;; foldM f l' s'
  end.

(* ================================================================= *)
(** ** Python strings and sequences *)

Module PyStr.

Definition chr (n : nat) : string := String (ascii_of_nat n) EmptyString.

(** Line feed and the double quote, which messages contain. *)
Definition nl : string := chr 10.
Definition dq : string := chr 34.

Definition colon : ascii := ":"%char.
Definition comma : ascii := ","%char.
Definition dash : ascii := "-"%char.

(** [c in s] for a one-character [c]. *)
Fixpoint contains (c : ascii) (s : string) : bool :=
  match s with
  | EmptyString => false
  | String a s' => Ascii.eqb a c || contains c s'
  end.

(** [s.split(sep)] for a one-character [sep]. *)
Fixpoint split (sep : ascii) (s : string) : list string :=
  match s with
  | EmptyString => [EmptyString]
  | String a s' =>
      if Ascii.eqb a sep then EmptyString :: split sep s'
      else match split sep s' with
           | [] => [String a EmptyString]
           | w :: ws => String a w :: ws
           end
  end.

(** [sep.join(l)]. *)
Fixpoint join (sep : string) (l : list string) : string :=
  match l with
  | [] => EmptyString
  | [x] => x
  | x :: rest => (x ++ sep ++ join sep rest)%string
  end.

(** [s.rsplit(sep, 1)]: at most one split, at the last [sep]. *)
Definition rsplit1 (sep : ascii) (s : string) : list string :=
  match split sep s with
  | [] | [_] => [s]
  | parts => [join (String sep EmptyString) (removelast parts);
              last parts EmptyString]
  end.

(** [s[:-1]]. *)
Fixpoint drop_last (s : string) : string :=
  match s with
  | EmptyString => EmptyString
  | String a EmptyString => EmptyString
  | String a s' => String a (drop_last s')
  end.

(** The characters of [s], as [for c in s] yields them. *)
Fixpoint chars (s : string) : list string :=
  match s with
  | EmptyString => []
  | String a s' => String a EmptyString :: chars s'
  end.

(** [x in l] for a list of strings. *)
Definition mem (x : string) (l : list string) : bool :=
  existsb (String.eqb x) l.

(** Python compares [str] values byte by byte. *)
Fixpoint insert_sorted (x : string) (l : list string) : list string :=
  match l with
  | [] => [x]
  | y :: l' => if String.leb x y then x :: l else y :: insert_sorted x l'
  end.

(** [sorted(l)]. *)
Definition sorted (l : list string) : list string :=
  fold_right insert_sorted [] l.

End PyStr.

(** [l[-1]] and [l[0]]. *)
Definition index_last {A} (l : list A) : result A :=
  match rev l with
  | [] => Raise IndexError
  | a :: _ => Ok a
  end.

Definition index0 {A} (l : list A) : result A :=
  match l with
  | [] => Raise IndexError
  | a :: _ => Ok a
  end.

(* ================================================================= *)
(** ** Python dictionaries with string keys *)

Module Dict.

(** Keys are unique in a Python [dict]; the list is its iteration order. *)
Definition t (V : Type) : Type := list (string * V).

Definition keys {V} (d : t V) : list string := map fst d.
Definition values {V} (d : t V) : list V := map snd d.

(** [d.get(k)], with [None] for a missing key. *)
Fixpoint get {V} (d : t V) (k : string) : option V :=
  match d with
  | [] => None
  | (k', v) :: d' => if String.eqb k' k then Some v else get d' k
  end.

(** [d.get(k, default)]. *)
Definition get_default {V} (d : t V) (k : string) (default : V) : V :=
  match get d k with
  | Some v => v
  | None => default
  end.

(** [d[k]]. *)
Definition getitem {V} (d : t V) (k : string) : result V :=
  match get d k with
  | Some v => Ok v
  | None => Raise (KeyError k)
  end.

(** [d[k] = v]: the value of an existing key is replaced. *)
Fixpoint set {V} (d : t V) (k : string) (v : V) : t V :=
  match d with
  | [] => [(k, v)]
  | (k', v') :: d' =>
      if String.eqb k' k then (k, v) :: d' else (k', v') :: set d' k v
  end.

(** [d.update(other)]. *)
Definition update {V} (d other : t V) : t V :=
  fold_left (fun acc kv => set acc (fst kv) (snd kv)) other d.

(** [dict(pairs)]. *)
Definition of_pairs {V} (pairs : list (string * V)) : t V :=
  update [] pairs.

End Dict.

(* ================================================================= *)
(** ** Python values *)

(** What the YAML loaders build.  [_JobsDoneYamlLoader] is a [BaseLoader]:
    it builds only [PStr], [PList] and [PDict] (and [PNone] for a file with
    no document); the default loader of the second read also resolves
    scalars to [PNone], [PBool] and [PInt]. *)
Inductive pyval : Type :=
| PNone
| PBool (b : bool)
| PInt (z : Z)
| PStr (s : string)
| PList (l : list pyval)
| PDict (d : list (string * pyval)).

Definition type_of (v : pyval) : pytype :=
  match v with
  | PNone => TNone
  | PBool _ => TBool
  | PInt _ => TInt
  | PStr _ => TStr
  | PList _ => TList
  | PDict _ => TDict
  end.

(** Truth value, as [not v] and [v or w] test it. *)
Definition truthy (v : pyval) : bool :=
  match v with
  | PNone => false
  | PBool b => b
  | PInt z => negb (Z.eqb z 0)
  | PStr s => negb (String.eqb s EmptyString)
  | PList l => match l with [] => false | _ => true end
  | PDict d => match d with [] => false | _ => true end
  end.

(** [for x in v]: the items of a list, the characters of a string, the keys
    of a dict. *)
Definition iter (v : pyval) : result (list pyval) :=
  match v with
  | PList l => Ok l
  | PStr s => Ok (map PStr (PyStr.chars s))
  | PDict d => Ok (map PStr (Dict.keys d))
  | _ => Raise TypeError
  end.

(** [v.iteritems()], [v.keys()] and [v.values()] need a dict. *)
Definition iteritems (v : pyval) : result (Dict.t pyval) :=
  match v with
  | PDict d => Ok d
  | _ => Raise AttributeError
  end.

(** A method of [str] called on a value that may not be one. *)
Definition as_str (v : pyval) : result string :=
  match v with
  | PStr s => Ok s
  | _ => Raise AttributeError
  end.

(* ================================================================= *)
(** ** The option tables *)

(** Options that are forwarded to generators, with the type each must have. *)
Definition GENERATOR_OPTIONS : Dict.t pytype :=
  [ ("boosttest_patterns", TList);
    ("build_batch_commands", TList);
    ("build_shell_commands", TList);
    ("description_regex", TStr);
    ("jsunit_patterns", TList);
    ("junit_patterns", TList);
    ("notify_stash", TDict);
    ("parameters", TList) ].

(** All parsed options: [GENERATOR_OPTIONS.copy()] updated with the two
    options that steer the creation of jobs. *)
Definition PARSEABLE_OPTIONS : Dict.t pytype :=
  Dict.update GENERATOR_OPTIONS
    [ ("branch_patterns", TList);
      ("matrix", TDict) ].

(** [str(t)] of a Python 2 type object. *)
Definition type_str (t : pytype) : string :=
  match t with
  | TNone => "<type 'NoneType'>"
  | TBool => "<type 'bool'>"
  | TInt => "<type 'int'>"
  | TStr => "<type 'str'>"
  | TList => "<type 'list'>"
  | TDict => "<type 'dict'>"
  end.

(** The message [UnknownJobsDoneFileOption.__init__] builds. *)
Definition UnknownJobsDoneFileOption_message (option_name : string) : string :=
  ("Received unknown option " ++ PyStr.dq ++ option_name ++ PyStr.dq ++ "."
   ++ PyStr.nl ++ PyStr.nl ++ "Available options are:" ++ PyStr.nl
   ++ PyStr.join PyStr.nl
        (map (fun o => "- " ++ o) (PyStr.sorted (Dict.keys PARSEABLE_OPTIONS))))%string.

(** The message [JobsDoneFileTypeError.__init__] builds. *)
Definition JobsDoneFileTypeError_message
    (option_name : string) (obtained_type expected_type : pytype) : string :=
  ("On option " ++ PyStr.dq ++ option_name ++ PyStr.dq
   ++ ". Expected " ++ PyStr.dq ++ type_str expected_type ++ PyStr.dq
   ++ " but got " ++ PyStr.dq ++ type_str obtained_type ++ PyStr.dq ++ ".")%string.

(** The message an exception of the file carries. *)
Definition message (e : exn) : option string :=
  match e with
  | UnknownJobsDoneFileOption n => Some (UnknownJobsDoneFileOption_message n)
  | JobsDoneFileTypeError n o x => Some (JobsDoneFileTypeError_message n o x)
  | _ => None
  end.

(** The option a key of the file names: [option_name.rsplit(':', 1)[-1]]. *)
Definition real_option_name (option_name : string) : result string :=
  index_last (PyStr.rsplit1 PyStr.colon option_name).

(** "Search for unknown options and type errors": the first loop of
    [CreateFromYAML], over [jd_data.iteritems()]. *)
Fixpoint check_options (items : Dict.t pyval) : result unit :=
  match items with
  | [] => Ok tt
  | (option_name, option_value) :: rest =>
      option_name <- real_option_name option_name ;;
      match Dict.get PARSEABLE_OPTIONS option_name with
      | None => Raise (UnknownJobsDoneFileOption option_name)
      | Some expected_type =>
          let obtained_type := type_of option_value in
          if negb (pytype_eqb obtained_type expected_type)
          then Raise (JobsDoneFileTypeError option_name obtained_type expected_type)
          else check_options rest
      end
  end.

(* ================================================================= *)
(** ** The job matrix *)

(** [itertools.product] of the pools, as the library documents it:
    [result = [[]]], then for each pool
    [result = [x+[y] for x in result for y in pool]]. *)
Definition product {A} (pools : list (list A)) : list (list A) :=
  fold_left
    (fun result pool => flat_map (fun x => map (fun y => x ++ [y]) pool) result)
    pools [[]].

(** [MatrixRow]: [__dict] maps each name to the list of its values. *)
Record MatrixRow : Type := { row_dict : Dict.t (list string) }.

(** [MatrixRow.__init__(names, values)]. *)
Definition MatrixRow_init (names : list string) (values : list pyval)
  : result MatrixRow :=
  values <- mapM (fun i => s <- as_str i ;; Ok (PyStr.split PyStr.comma s)) values ;;
  Ok {| row_dict := Dict.of_pairs (combine names values) |}.

(** [MatrixRow.AsDict]: only the first value of each entry. *)
Definition AsDict (self : MatrixRow) : result (Dict.t string) :=
  pairs <- mapM (fun ij => j0 <- index0 (snd ij) ;; Ok (fst ij, j0)) (row_dict self) ;;
  Ok (Dict.of_pairs pairs).

(** The inner [_Match(matrix_row, condition)] of [MatrixRow.Match]. *)
Definition _Match (matrix_row : Dict.t (list string)) (condition : string)
  : result bool :=
  match PyStr.split PyStr.dash condition with
  | [variable_name; variable_value] =>
      variable_values <- Dict.getitem matrix_row variable_name ;;
      Ok (PyStr.mem variable_value variable_values)
  | _ => Raise ValueError
  end.

(** [MatrixRow.Match]: [all] of a list comprehension, which is evaluated
    whole before [all] sees it. *)
Definition Match (self : MatrixRow) (conditions : list string) : result bool :=
  matches <- mapM (_Match (row_dict self)) conditions ;;
  Ok (forallb (fun b => b) matches).

(** [JobsDoneJob.CreateMatrixRows]. *)
Definition CreateMatrixRows (matrix_dict : Dict.t pyval) : result (list MatrixRow) :=
  let names := Dict.keys matrix_dict in
  pools <- mapM iter (Dict.values matrix_dict) ;;
  let value_combinations := product pools in
  mapM (MatrixRow_init names) value_combinations.

(* ================================================================= *)
(** ** Jobs *)

(** Modelled from the spec: the class [Repository] of
    [jobs_done10.repository], which the sources only import; the spec
    gives it as the value [{url, name, branch}]. *)
Record Repository : Type :=
  { url : string; name : string; branch : string }.

(** What an attribute of a job holds. *)
Inductive attr : Type :=
| AVal (v : pyval)
| ARepo (r : Repository).

(** A [JobsDoneJob] is its attributes. *)
Definition JobsDoneJob : Type := Dict.t attr.

Definition setattr (self : JobsDoneJob) (name : string) (value : attr) : JobsDoneJob :=
  Dict.set self name value.

Definition getattr (self : JobsDoneJob) (name : string) : option attr :=
  Dict.get self name.

(** [JobsDoneJob.__init__]: [matrix_row] and every known option are [None]. *)
Definition JobsDoneJob_init : JobsDoneJob :=
  fold_left (fun self option_name => setattr self option_name (AVal PNone))
    (Dict.keys PARSEABLE_OPTIONS)
    (setattr [] "matrix_row" (AVal PNone)).

(** A [dict] of strings as a value. *)
Definition pydict_of (d : Dict.t string) : pyval :=
  PDict (map (fun kv => (fst kv, PStr (snd kv))) d).

(* ================================================================= *)
(** ** Reading a jobs_done file *)

(** The library calls of [CreateFromYAML].  Their code is not part of the
    repository; they are taken as given. *)
Record Library : Type := {
  (** [yaml.load(text, Loader=cls._JobsDoneYamlLoader)] *)
  yaml_load_jobs_done : string -> result pyval;
  (** [yaml.dump(data, default_flow_style=False)] *)
  yaml_dump : pyval -> string;
  (** [text.format( **mapping )] *)
  str_format : string -> Dict.t string -> result string;
  (** [yaml.load(text)] *)
  yaml_load : string -> result pyval;
  (** [re.match(pattern, text)], as a truth value *)
  re_match : string -> string -> result bool
}.

Section Reading.

Variable lib : Library.

(** [re.match(pattern, branch)] for a pattern taken from the file. *)
Definition match_pattern (branch : string) (pattern : pyval) : result bool :=
  match pattern with
  | PStr p => re_match lib p branch
  | _ => Raise TypeError
  end.

(** "Check if this branch is acceptable (matches anything in
    branch_patterns)": [any] of the list of all matches. *)
Definition branch_accepted (jd_data : Dict.t pyval) (repository : Repository)
  : result bool :=
  let branch_patterns :=
    Dict.get_default jd_data "branch_patterns" (PList [PStr ".*"]) in
  patterns <- iter branch_patterns ;;
  matches <- mapM (match_pattern (branch repository)) patterns ;;
  Ok (existsb (fun b => b) matches).

(** The mapping given to [format]: [branch] and [name], updated with the
    row. *)
Definition format_dict_of (repository : Repository) (row : Dict.t string)
  : Dict.t string :=
  Dict.update [("branch", branch repository); ("name", name repository)] row.

(** "Re-read jd_data replacing all matrix variables with their values in
    the current i_matrix_row": dump, format, load. *)
Definition reread (jd_data : Dict.t pyval) (repository : Repository)
    (i_matrix_row : MatrixRow) : result pyval :=
  row <- AsDict i_matrix_row ;;
  let format_dict := format_dict_of repository row in
  let jd_string := PyStr.drop_last (yaml_dump lib (PDict jd_data)) in
  formatted_jd_string <- str_format lib jd_string format_dict ;;
  yaml_load lib formatted_jd_string.

(** The body of the loop over [jd_formatted_data.iteritems()]. *)
Definition set_option (i_matrix_row : MatrixRow) (jobs_done_job : JobsDoneJob)
    (item : string * pyval) : result JobsDoneJob :=
  let (option_name, option_value) := item in
  if PyStr.contains PyStr.colon option_name then
    let conditions := removelast (PyStr.split PyStr.colon option_name) in
    option_name <- index_last (PyStr.split PyStr.colon option_name) ;;
    applies <- Match i_matrix_row conditions ;;
    if negb applies then Ok jobs_done_job
    else Ok (setattr jobs_done_job option_name (AVal option_value))
  else Ok (setattr jobs_done_job option_name (AVal option_value)).

Definition set_options (i_matrix_row : MatrixRow) (items : Dict.t pyval)
    (jobs_done_job : JobsDoneJob) : result JobsDoneJob :=
  foldM (set_option i_matrix_row) items jobs_done_job.

(** The body of the loop over [matrix_rows]. *)
Definition create_job (jd_data : Dict.t pyval) (repository : Repository)
    (i_matrix_row : MatrixRow) : result JobsDoneJob :=
  let jobs_done_job := JobsDoneJob_init in
  let jobs_done_job := setattr jobs_done_job "repository" (ARepo repository) in
  row <- AsDict i_matrix_row ;;
  let jobs_done_job := setattr jobs_done_job "matrix_row" (AVal (pydict_of row)) in
  if negb (truthy (PDict jd_data)) then Ok jobs_done_job
  else
    jd_formatted_data <- reread jd_data repository i_matrix_row ;;
    items <- iteritems jd_formatted_data ;;
    set_options i_matrix_row items jobs_done_job.

(** [JobsDoneJob.CreateFromYAML]; [yaml_contents] may be [None]. *)
Definition CreateFromYAML (yaml_contents : option string) (repository : Repository)
  : result (list JobsDoneJob) :=
  match yaml_contents with
  | None => Ok []
  | Some yaml_contents =>
      loaded <- yaml_load_jobs_done lib yaml_contents ;;
      let jd_data := if truthy loaded then loaded else PDict [] in
      jd_data <- iteritems jd_data ;;
      _ <- check_options jd_data ;;
      accepted <- branch_accepted jd_data repository ;;
      if negb accepted then Ok []
      else
        matrix <- iteritems (Dict.get_default jd_data "matrix" (PDict [])) ;;
        matrix_rows <- CreateMatrixRows matrix ;;
        mapM (create_job jd_data repository) matrix_rows
  end.

End Reading.

(* ================================================================= *)
(** ** Configuring a generator *)

Module JobGenerator.

(** A call received by a generator. *)
Inductive call : Type :=
| CallReset
| CallSet (method : string) (value : attr).

(** Modelled from the spec: a generator is an object of which the
    configurator only sees which configuration methods it has; [Reset] is
    mandatory. *)
Record Generator : Type := { methods : list string }.

(** Calls on the generator are its only effect: a computation threads the
    log of the calls made so far and may raise. *)
Definition Calls (A : Type) : Type := list call -> result A * list call.

Definition ret {A} (a : A) : Calls A := fun log => (Ok a, log).

Definition raise {A} (e : exn) : Calls A := fun log => (Raise e, log).

Definition invoke (c : call) : Calls unit := fun log => (Ok tt, log ++ [c]).

Definition then_ {A B} (m : Calls A) (k : A -> Calls B) : Calls B :=
  fun log =>
    match m log with
    | (Ok a, log') => k a log'
    | (Raise e, log') => (Raise e, log')
    end.

Notation "m >>= k" := (then_ m k) (at level 58, left associativity).

Fixpoint for_each {A} (l : list A) (body : A -> Calls unit) : Calls unit :=
  match l with
  | [] => ret tt
  | a :: l' => body a >>= fun _ => for_each l' body
  end.

(** How many times [Reset] was called. *)
Definition resets (log : list call) : nat :=
  length (filter (fun c => match c with CallReset => true | _ => false end) log).

(** How many options were forwarded. *)
Definition forwarded (log : list call) : nat :=
  length (filter (fun c => match c with CallSet _ _ => true | _ => false end) log).

Section Configure.

(** The rule that derives the name of the configuration method from the
    name of the option; the spec says it is fixed and does not give it. *)
Variable method_name : string -> string.

(** Modelled from the spec: an option whose field is not empty is given to
    the method derived from its name, and it is an error for the generator
    not to have that method. *)
Definition forward (generator : Generator) (job : JobsDoneJob)
    (option_name : string) : Calls unit :=
  match getattr job option_name with
  | None | Some (AVal PNone) => ret tt
  | Some value =>
      if PyStr.mem (method_name option_name) (methods generator)
      then invoke (CallSet (method_name option_name) value)
      else raise (JobGeneratorAttributeError option_name)
  end.

(** Modelled from the spec: [JobGeneratorConfigurator.Configure] of
    [jobs_done10.job_generator], a module the sources import and test but do
    not contain.  The generator is reset first, "establishing a known-clean
    state before option forwarding", then every forwardable option is
    forwarded. *)
Definition Configure (generator : Generator) (job : JobsDoneJob) : Calls unit :=
  invoke CallReset >>= fun _ =>
  for_each (Dict.keys GENERATOR_OPTIONS) (forward generator job).

End Configure.

End JobGenerator.

(* ================================================================= *)
(** ** Notions the statements use *)

(** A matrix as the docstrings give it, a name mapped to a list of strings,
    as the value the loader builds for it. *)
Definition matrix_of (matrix : Dict.t (list string)) : Dict.t pyval :=
  map (fun kv => (fst kv, PList (map PStr (snd kv)))) matrix.

(** The row [MatrixRow(names, values)] holds when all values are strings. *)
Definition row_of (names values : list string) : MatrixRow :=
  {| row_dict := Dict.of_pairs (combine names (map (PyStr.split PyStr.comma) values)) |}.

(** n1 x ... x nk for pools of sizes n1 ... nk. *)
Definition combinations {A} (pools : list (list A)) : nat :=
  fold_right (fun pool n => length pool * n) 1 pools.

(** The Cartesian product in lexicographic order: the first pool varies
    slowest, each pool in its own order. *)
Fixpoint lexicographic_product {A} (pools : list (list A)) : list (list A) :=
  match pools with
  | [] => [[]]
  | pool :: rest =>
      flat_map (fun y => map (cons y) (lexicographic_product rest)) pool
  end.

(** A combination is named by the position it takes in each pool. *)
Definition valid_index {A} (idx : list nat) (pools : list (list A)) : Prop :=
  Forall2 (fun i pool => i < length pool) idx pools.

Fixpoint select {A} (pools : list (list A)) (idx : list nat) : option (list A) :=
  match pools, idx with
  | [], [] => Some []
  | pool :: pools', i :: idx' =>
      match nth_error pool i, select pools' idx' with
      | Some y, Some ys => Some (y :: ys)
      | _, _ => None
      end
  | _, _ => None
  end.

(** The place of a combination in the lexicographic order. *)
Fixpoint rank {A} (pools : list (list A)) (idx : list nat) : nat :=
  match pools, idx with
  | _ :: pools', i :: idx' => i * combinations pools' + rank pools' idx'
  | _, _ => 0
  end.

(** Lexicographic order on positions. *)
Inductive lex_lt : list nat -> list nat -> Prop :=
| lex_lt_here i j idx idx' : i < j -> lex_lt (i :: idx) (j :: idx')
| lex_lt_next i idx idx' : lex_lt idx idx' -> lex_lt (i :: idx) (i :: idx').

(** The first of the comma-separated sub-values of a value. *)
Fixpoint first_subvalue (value : string) : string :=
  match value with
  | EmptyString => EmptyString
  | String a rest =>
      if Ascii.eqb a PyStr.comma then EmptyString
      else String a (first_subvalue rest)
  end.

(** The parts of a key [cond1:...:condn:option]. *)
Definition conditions_of_key (key : string) : list string :=
  removelast (PyStr.split PyStr.colon key).

Definition option_of_key (key : string) : string :=
  last (PyStr.split PyStr.colon key) EmptyString.

(** A condition token [name-value] holds in a row: [value] is among the
    values the row retains for [name]. *)
Definition condition_holds (row : MatrixRow) (condition : string) : Prop :=
  exists variable_name variable_value variable_values,
    PyStr.split PyStr.dash condition = [variable_name; variable_value]
    /\ Dict.get (row_dict row) variable_name = Some variable_values
    /\ In variable_value variable_values.

(** The same, decided. *)
Definition condition_holdsb (row : MatrixRow) (condition : string) : bool :=
  match PyStr.split PyStr.dash condition with
  | [variable_name; variable_value] =>
      match Dict.get (row_dict row) variable_name with
      | Some variable_values => PyStr.mem variable_value variable_values
      | None => false
      end
  | _ => false
  end.

(** A condition token of the form [name-value] that names a variable of the
    row; on any other token [Match] raises. *)
Definition condition_of_row (row : MatrixRow) (condition : string) : Prop :=
  exists variable_name variable_value,
    PyStr.split PyStr.dash condition = [variable_name; variable_value]
    /\ Dict.get (row_dict row) variable_name <> None.

Definition key_of_row (row : MatrixRow) (key : string) : Prop :=
  Forall (condition_of_row row) (conditions_of_key key).

(** A key applies to a row when all its condition tokens hold; a key
    without condition tokens applies to every row. *)
Definition key_applies (row : MatrixRow) (key : string) : Prop :=
  Forall (condition_holds row) (conditions_of_key key).

Definition key_appliesb (row : MatrixRow) (key : string) : bool :=
  forallb (condition_holdsb row) (conditions_of_key key).

(** A key of the file is accepted by the check of names and types. *)
Definition option_ok (item : string * pyval) : Prop :=
  exists option_name,
    real_option_name (fst item) = Ok option_name
    /\ Dict.get PARSEABLE_OPTIONS option_name = Some (type_of (snd item)).

(** The job of a row before the options of the file are set on it: what
    [__init__] and the head of the loop over the rows set. *)
Definition row_job (repository : Repository) (bindings : Dict.t string)
  : JobsDoneJob :=
  setattr (setattr JobsDoneJob_init "repository" (ARepo repository))
    "matrix_row" (AVal (pydict_of bindings)).

(** The job of a file without options: nothing but what [__init__] and the
    loop over the rows set. *)
Definition empty_job (repository : Repository) : JobsDoneJob :=
  setattr (setattr JobsDoneJob_init "repository" (ARepo repository))
    "matrix_row" (AVal (PDict [])).

(* ================================================================= *)
(** ** The text of a row, and keys as they are written *)

(** The list [result] that [MatrixRow.__str__] builds: one [name-value] for
    each value of each name. *)
Definition MatrixRow_str_result (self : MatrixRow) : list string :=
  flat_map
    (fun item => map (fun j_value => (fst item ++ "-" ++ j_value)%string) (snd item))
    (row_dict self).

(** [MatrixRow.__str__]. *)
Definition MatrixRow_str (self : MatrixRow) : string :=
  ("<MatrixRow " ++ PyStr.join " " (MatrixRow_str_result self) ++ ">")%string.

(** The condition token written for a variable and a value. *)
Definition condition_token (condition : string * string) : string :=
  (fst condition ++ "-" ++ snd condition)%string.

(** The key written for conditions and an option:
    [cond1:...:condn:option]. *)
Definition conditioned_key (conditions : list (string * string))
    (option_name : string) : string :=
  PyStr.join ":" (map condition_token conditions ++ [option_name]).

(** A word that can stand in a key: neither [:] nor [-] in it. *)
Definition plain (word : string) : Prop :=
  PyStr.contains PyStr.colon word = false
  /\ PyStr.contains PyStr.dash word = false.

(* ================================================================= *)
(** ** The order in which a Python 2 dict yields its keys *)

(** The file is Python 2 ([iteritems]) and its dicts are plain [dict]s: the
    order in which one yields its items is the order of the slots of its
    hash table, not the order in which the items were put in.  This is the
    [dict] of CPython 2.7 on a 64-bit build, with the hashes of [str] not
    randomized, as they are unless asked: [string_hash], [lookdict_string],
    [insertdict] and [dictresize]. *)
Module Py2.

(** The bits of a 64-bit [long], as a number below 2^64. *)
Definition word (z : Z) : Z := (z mod 2 ^ 64)%Z.

(** The loop of [string_hash]: [x = (1000003*x) ^ *p++]. *)
Fixpoint hash_loop (s : string) (x : Z) : Z :=
  match s with
  | EmptyString => x
  | String c s' =>
      hash_loop s' (Z.lxor (word (1000003 * x)%Z) (Z.of_nat (nat_of_ascii c)))
  end.

(** [hash(s)] of a [str]: 0 for the empty string; else it starts from
    [*p << 7], runs the loop, mixes the length in, and avoids -1. *)
Definition string_hash (s : string) : Z :=
  match s with
  | EmptyString => 0%Z
  | String c _ =>
      let x := Z.shiftl (Z.of_nat (nat_of_ascii c)) 7 in
      let x := hash_loop s x in
      let x := Z.lxor x (Z.of_nat (String.length s)) in
      if Z.eqb x (2 ^ 64 - 1)%Z then (2 ^ 64 - 2)%Z else x
  end.

Section Table.

Context {V : Type}.

(** A slot of the table is empty or holds a hash, a key and a value. *)
Definition slot : Type := option (Z * (string * V)).

(** The slot where [key] is or is to be put: the probes start at
    [hash & mask] and go on by [i = (i << 2) + i + perturb + 1], [perturb]
    starting as the hash and shifted right by 5 after each probe.  A table
    is never full, so an empty slot is met; [fuel] bounds the probes. *)
Fixpoint lookdict (fuel : nat) (table : list slot) (mask hash : Z)
    (key : string) (i perturb : Z) : option nat :=
  match fuel with
  | O => None
  | S fuel' =>
      let place := Z.to_nat (Z.land i mask) in
      match nth place table None with
      | None => Some place
      | Some (h, (k, _)) =>
          if Z.eqb h hash && String.eqb k key then Some place
          else lookdict fuel' table mask hash key
                 (word (Z.shiftl i 2 + i + perturb + 1)%Z) (Z.shiftr perturb 5)
      end
  end.

Definition find_slot (table : list slot) (hash : Z) (key : string) : option nat :=
  let mask := (Z.of_nat (length table) - 1)%Z in
  lookdict (64 + length table) table mask hash key (Z.land hash mask) hash.

Fixpoint store (table : list slot) (place : nat) (e : Z * (string * V))
  : list slot :=
  match table, place with
  | [], _ => []
  | _ :: table', O => Some e :: table'
  | s :: table', S place' => s :: store table' place' e
  end.

(** [ma_used]: the slots that hold an item (no item is ever deleted here,
    so it is [ma_fill] as well). *)
Definition used (table : list slot) : nat :=
  length (filter (fun s => match s with Some _ => true | None => false end) table).

(** The size [dictresize] takes: the first power of two from 8 on that is
    greater than [minused]. *)
Fixpoint new_size (fuel : nat) (size minused : nat) : nat :=
  match fuel with
  | O => size
  | S fuel' =>
      if Nat.leb size minused then new_size fuel' (2 * size) minused else size
  end.

(** [dictresize]: the items are put again, in the order of their slots,
    into an empty table of the new size. *)
Definition dictresize (table : list slot) (minused : nat) : option (list slot) :=
  fold_left
    (fun new s =>
       match new, s with
       | None, _ => None
       | Some new, None => Some new
       | Some new, Some (h, (k, v)) =>
           match find_slot new h k with
           | Some place => Some (store new place (h, (k, v)))
           | None => None
           end
       end)
    table (Some (repeat None (new_size 64 8 minused))).

(** [d[key] = value]: [insertdict], then a larger table when two thirds of
    the slots are taken. *)
Definition setitem (table : list slot) (key : string) (value : V)
  : option (list slot) :=
  let hash := string_hash key in
  match find_slot table hash key with
  | None => None
  | Some place =>
      let table' := store table place (hash, (key, value)) in
      match nth place table None with
      | Some _ => Some table'
      | None =>
          let n := used table' in
          if Nat.leb (2 * length table') (3 * n)
          then dictresize table' ((if Z.ltb 50000 (Z.of_nat n) then 2 else 4) * n)
          else Some table'
      end
  end.

(** The items in the order the dict yields them: the order of the slots. *)
Definition items (table : list slot) : list (string * V) :=
  flat_map (fun s => match s with Some (_, kv) => [kv] | None => [] end) table.

(** The dict that holds [pairs], put in one after the other into an empty
    dict (8 slots), as the order in which it yields them; [None] if a probe
    ran out of fuel. *)
Definition dict_of (pairs : list (string * V)) : option (list (string * V)) :=
  match
    fold_left
      (fun table kv =>
         match table with
         | None => None
         | Some table => setitem table (fst kv) (snd kv)
         end)
      pairs (Some (repeat None 8))
  with
  | Some table => Some (items table)
  | None => None
  end.

End Table.

End Py2.

(* ================================================================= *)
(** ** Inputs of the examples *)

(** The repository of the docstring of [CreateFromYAML], with a name. *)
Definition space : Repository :=
  {| url := "http://space.git"; name := "space"; branch := "milky_way" |}.

(** A stand-in for [re.match] that is enough for the patterns of the
    examples: [.*] matches every text, and a pattern without operators
    matches the texts that start with it. *)
Definition literal_match (pattern text : string) : result bool :=
  Ok (String.eqb pattern ".*" || String.prefix pattern text).

(** Stand-ins for the libraries on one file: loading gives [document],
    formatting finds no placeholder. *)
Definition library_of (document : pyval) : Library :=
  {| yaml_load_jobs_done := fun _ => Ok document;
     yaml_dump := fun _ => EmptyString;
     str_format := fun text _ => Ok text;
     yaml_load := fun _ => Ok document;
     re_match := literal_match |}.

(** The row of the matrix [planet: [earth, mars]] for [earth]. *)
Definition earth : MatrixRow := row_of ["planet"] ["earth"].

(** A file with the matrix [planet: [earth, mars]] and one option, for the
    row [earth] only. *)
Definition planets_file : Dict.t pyval :=
  [("matrix", PDict (matrix_of [("planet", ["earth"; "mars"])]));
   ("planet-earth:junit_patterns", PList [PStr "x.xml"])].

(** A matrix as a file declares it: [moon] first, then [planet]. *)
Definition moon_then_planet : Dict.t (list string) :=
  [("moon", ["europa"; "ganymede"]); ("planet", ["earth"; "mars"])].

(** The row of the matrix [planet: [earth, mars]] for [mars]. *)
Definition mars : MatrixRow := row_of ["planet"] ["mars"].

(** The options of a file in the order it has them: an option for the row
    [mars] first, the same option for every row after it. *)
Definition mars_first_file : Dict.t pyval :=
  [("planet-mars:junit_patterns", PList [PStr "mars.xml"]);
   ("junit_patterns", PList [PStr "all.xml"]);
   ("matrix", PDict (matrix_of [("planet", ["earth"; "mars"])]))].

(** A file whose second pattern is a list, not a string. *)
Definition patterns_file : Dict.t pyval :=
  [("branch_patterns", PList [PStr ".*"; PList []])].

(* ================================================================= *)
(** * Properties *)

(** ** List comprehensions and loops that can raise *)

Lemma mapM_ok {A B} (f : A -> result B) (g : A -> B) (l : list A) :
  (forall a, In a l -> f a = Ok (g a)) -> mapM f l = Ok (map g l).
Proof.
  induction l as [|a l IH]; intros Hf; simpl.
  - reflexivity.
  - rewrite (Hf a (or_introl eq_refl)). simpl.
    rewrite IH by (intros b Hb; apply Hf; right; exact Hb).
    reflexivity.
Qed.

Lemma mapM_map {A B C} (f : B -> result C) (g : A -> B) (l : list A) :
  mapM f (map g l) = mapM (fun a => f (g a)) l.
Proof.
  induction l as [|a l IH]; simpl; [reflexivity|].
  rewrite IH. reflexivity.
Qed.

Lemma foldM_app {A S} (f : S -> A -> result S) (l1 l2 : list A) (s : S) :
  foldM f (l1 ++ l2) s = (s' <- foldM f l1 s ;; foldM f l2 s').
Proof.
  revert s. induction l1 as [|a l1 IH]; intros s; simpl.
  - reflexivity.
  - destruct (f s a) as [s'|e]; simpl; [apply IH | reflexivity].
Qed.

(** ** The product of the pools *)

Section Product.

Context {A : Type}.

Lemma flat_map_singleton (l : list (list A)) :
  flat_map (fun x => map (app x) [[]]) l = l.
Proof.
  induction l as [|x l IH]; cbn [flat_map]; [reflexivity|].
  rewrite IH. cbn [map app]. rewrite app_nil_r. reflexivity.
Qed.

Lemma extend_then_complete (x : list A) (pool : list A) (tails : list (list A)) :
  flat_map (fun x' => map (app x') tails) (map (fun y => x ++ [y]) pool)
  = map (app x) (flat_map (fun y => map (cons y) tails) pool).
Proof.
  induction pool as [|y pool IH]; simpl; [reflexivity|].
  rewrite IH, map_app, map_map. f_equal.
  apply map_ext. intros t. rewrite <- app_assoc. reflexivity.
Qed.

(** The loop of [product], started from any list of prefixes, completes each
    prefix by every combination of the remaining pools, in order. *)
Lemma product_loop (pools : list (list A)) (prefixes : list (list A)) :
  fold_left
    (fun result pool => flat_map (fun x => map (fun y => x ++ [y]) pool) result)
    pools prefixes
  = flat_map (fun x => map (app x) (lexicographic_product pools)) prefixes.
Proof.
  revert prefixes. induction pools as [|pool pools IH]; intros prefixes;
    cbn [fold_left lexicographic_product].
  - symmetry. apply flat_map_singleton.
  - rewrite IH. clear IH.
    induction prefixes as [|x prefixes IHp]; simpl; [reflexivity|].
    rewrite flat_map_app, IHp, extend_then_complete. reflexivity.
Qed.

Lemma product_lexicographic (pools : list (list A)) :
  product pools = lexicographic_product pools.
Proof.
  unfold product. rewrite product_loop. simpl.
  rewrite app_nil_r. rewrite <- (map_id (lexicographic_product pools)) at 2.
  apply map_ext. reflexivity.
Qed.

Lemma length_blocks {B} (f : A -> list B) (n : nat) (pool : list A) :
  (forall y, length (f y) = n) -> length (flat_map f pool) = length pool * n.
Proof.
  intros Hf. induction pool as [|y pool IH]; simpl; [reflexivity|].
  rewrite length_app, Hf, IH. reflexivity.
Qed.

Lemma length_lexicographic_product (pools : list (list A)) :
  length (lexicographic_product pools) = combinations pools.
Proof.
  induction pools as [|pool pools IH]; simpl; [reflexivity|].
  rewrite (length_blocks _ (combinations pools)); [reflexivity|].
  intros y. rewrite length_map. exact IH.
Qed.

(** In a list made of blocks of one size, the element [j] of block [i]. *)
Lemma nth_error_blocks {B} (f : A -> list B) (n : nat) (pool : list A) :
  (forall y, length (f y) = n) ->
  forall i j y, nth_error pool i = Some y -> j < n ->
    nth_error (flat_map f pool) (i * n + j) = nth_error (f y) j.
Proof.
  intros Hf. induction pool as [|y0 pool IH]; intros i j y Hi Hj.
  - destruct i; discriminate.
  - destruct i as [|i]; simpl in *.
    + injection Hi as ->. apply nth_error_app1. rewrite Hf. exact Hj.
    + rewrite nth_error_app2 by (rewrite Hf; lia).
      rewrite Hf. replace (n + i * n + j - n) with (i * n + j) by lia.
      apply IH; assumption.
Qed.

Lemma rank_lt (pools : list (list A)) (idx : list nat) :
  valid_index idx pools -> rank pools idx < combinations pools.
Proof.
  intros H. induction H as [|i pool idx pools Hi _ IH]; simpl.
  - lia.
  - nia.
Qed.

(** The combination named by [idx] stands at place [rank pools idx]. *)
Lemma nth_error_lexicographic_product (pools : list (list A)) (idx : list nat) :
  valid_index idx pools ->
  exists ys, select pools idx = Some ys
             /\ nth_error (lexicographic_product pools) (rank pools idx) = Some ys.
Proof.
  intros H. induction H as [|i pool idx pools Hi Hv IH]; simpl.
  - exists []. split; reflexivity.
  - destruct IH as (ys & Hsel & Hnth).
    destruct (nth_error pool i) as [y|] eqn:Ey;
      [|apply nth_error_None in Ey; lia].
    exists (y :: ys). rewrite Hsel. split; [reflexivity|].
    rewrite (nth_error_blocks _ (combinations pools) pool) with (y := y).
    + rewrite nth_error_map, Hnth. reflexivity.
    + intros y'. rewrite length_map. apply length_lexicographic_product.
    + exact Ey.
    + apply rank_lt. exact Hv.
Qed.

(** A combination that is smaller in the lexicographic order comes first. *)
Lemma rank_increasing (pools : list (list A)) (idx idx' : list nat) :
  valid_index idx pools -> valid_index idx' pools ->
  lex_lt idx idx' -> rank pools idx < rank pools idx'.
Proof.
  intros H. revert idx'.
  induction H as [|i pool idx pools Hi Hv IH]; intros idx' H' Hlt.
  - inversion Hlt.
  - inversion H' as [|j pool' jdx pools' Hj Hv' E1 E2]; subst.
    simpl. apply rank_lt in Hv as Hr. apply rank_lt in Hv' as Hr'.
    inversion Hlt as [i0 j0 t t' Hij|i0 t t' Htl]; subst.
    + nia.
    + specialize (IH _ Hv' Htl). lia.
Qed.

End Product.

Lemma lexicographic_product_map {A B} (f : A -> B) (pools : list (list A)) :
  lexicographic_product (map (map f) pools)
  = map (map f) (lexicographic_product pools).
Proof.
  induction pools as [|pool pools IH]; simpl; [reflexivity|].
  rewrite IH. clear IH.
  induction pool as [|y pool IHp]; simpl; [reflexivity|].
  rewrite map_app, IHp, !map_map. reflexivity.
Qed.

(** ** The rows of a matrix *)

Lemma keys_matrix_of (matrix : Dict.t (list string)) :
  Dict.keys (matrix_of matrix) = Dict.keys matrix.
Proof.
  unfold Dict.keys, matrix_of. rewrite map_map. reflexivity.
Qed.

Lemma values_matrix_of (matrix : Dict.t (list string)) :
  Dict.values (matrix_of matrix)
  = map (fun pool => PList (map PStr pool)) (Dict.values matrix).
Proof.
  unfold Dict.values, matrix_of. rewrite !map_map. reflexivity.
Qed.

Lemma MatrixRow_init_strings (names values : list string) :
  MatrixRow_init names (map PStr values) = Ok (row_of names values).
Proof.
  unfold MatrixRow_init, row_of.
  rewrite mapM_map, (mapM_ok _ (PyStr.split PyStr.comma)); [reflexivity|].
  intros; reflexivity.
Qed.

(** On a matrix of lists of strings [CreateMatrixRows] does not raise, and
    its rows are the combinations in lexicographic order. *)
Lemma CreateMatrixRows_matrix_of (matrix : Dict.t (list string)) :
  CreateMatrixRows (matrix_of matrix)
  = Ok (map (row_of (Dict.keys matrix))
          (lexicographic_product (Dict.values matrix))).
Proof.
  unfold CreateMatrixRows.
  rewrite keys_matrix_of, values_matrix_of, mapM_map.
  rewrite (mapM_ok _ (map PStr)) by (intros; reflexivity).
  cbn [bind]. rewrite product_lexicographic, lexicographic_product_map.
  rewrite mapM_map. apply mapM_ok.
  intros values _. apply MatrixRow_init_strings.
Qed.

(** C1: for a matrix whose variables have lists of n1 ... nk values,
    [CreateMatrixRows] returns exactly n1 x ... x nk rows; for the matrix
    without variables it returns exactly one row, whose bindings are empty. *)
Theorem C1_CreateMatrixRows_count :
  (forall matrix : Dict.t (list string),
      exists rows,
        CreateMatrixRows (matrix_of matrix) = Ok rows
        /\ length rows = combinations (Dict.values matrix))
  /\ CreateMatrixRows [] = Ok [ {| row_dict := [] |} ]
  /\ AsDict {| row_dict := [] |} = Ok [].
Proof.
  split; [|split; reflexivity].
  intros matrix. eexists. split; [apply CreateMatrixRows_matrix_of|].
  rewrite length_map. apply length_lexicographic_product.
Qed.

(** C5, as the code has it: the rows [CreateMatrixRows] returns are a
    function of the matrix, and they stand in the lexicographic order of the
    Cartesian product: the row that takes the value at place [i1] of the
    first variable, ..., [ik] of the last one is the row number [rank],
    which grows with [(i1..ik)] in the lexicographic order.  The variables
    are taken in the order in which the dict of the matrix yields them
    ([keys()] and [values()]), which need not be the order in which the file
    declares them; the values in the order of each list. *)
Theorem C5_CreateMatrixRows_order :
  forall matrix : Dict.t (list string),
    let names := Dict.keys matrix in
    let pools := Dict.values matrix in
    exists rows,
      CreateMatrixRows (matrix_of matrix) = Ok rows
      /\ rows = map (row_of names) (lexicographic_product pools)
      /\ (forall idx, valid_index idx pools ->
            exists values,
              select pools idx = Some values
              /\ nth_error rows (rank pools idx) = Some (row_of names values))
      /\ (forall idx idx', valid_index idx pools -> valid_index idx' pools ->
            lex_lt idx idx' -> rank pools idx < rank pools idx').
Proof.
  intros matrix names pools. eexists.
  split; [apply CreateMatrixRows_matrix_of|].
  split; [reflexivity|]. split.
  - intros idx Hidx.
    destruct (nth_error_lexicographic_product pools idx Hidx) as (vs & Hs & Hn).
    exists vs. split; [exact Hs|].
    rewrite nth_error_map. fold names pools. rewrite Hn. reflexivity.
  - intros idx idx'. apply rank_increasing.
Qed.

(** ** Strings *)

Lemma split_not_nil (sep : ascii) (s : string) : PyStr.split sep s <> [].
Proof.
  destruct s as [|a s]; simpl; [discriminate|].
  destruct (Ascii.eqb a sep); [discriminate|].
  destruct (PyStr.split sep s); discriminate.
Qed.

Lemma split_without_sep (sep : ascii) (s : string) :
  PyStr.contains sep s = false -> PyStr.split sep s = [s].
Proof.
  induction s as [|a s IH]; simpl; intros H; [reflexivity|].
  apply orb_false_iff in H as [Ha Hs].
  rewrite Ha, (IH Hs). reflexivity.
Qed.

Lemma split_with_sep (sep : ascii) (s : string) :
  PyStr.contains sep s = true ->
  exists x y rest, PyStr.split sep s = x :: y :: rest.
Proof.
  induction s as [|a s IH]; simpl; intros H; [discriminate|].
  destruct (Ascii.eqb a sep) eqn:Ea.
  - destruct (PyStr.split sep s) as [|y rest] eqn:Es;
      [exfalso; exact (split_not_nil _ _ Es)|].
    exists EmptyString, y, rest. reflexivity.
  - simpl in H. destruct (IH H) as (x & y & rest & ->).
    exists (String a x), y, rest. reflexivity.
Qed.

Lemma index_last_last {A} (l : list A) (d : A) :
  l <> [] -> index_last l = Ok (last l d).
Proof.
  intros Hl. destruct (exists_last Hl) as (l' & a & ->).
  unfold index_last. rewrite rev_unit, last_last. reflexivity.
Qed.

(** Both ways the file takes the name of the option off a key give the
    same name. *)
Lemma real_option_name_key (key : string) :
  real_option_name key = Ok (option_of_key key).
Proof.
  unfold real_option_name, option_of_key, PyStr.rsplit1.
  destruct (PyStr.contains PyStr.colon key) eqn:Ec.
  - destruct (split_with_sep _ _ Ec) as (x & y & rest & ->). reflexivity.
  - rewrite (split_without_sep _ _ Ec). reflexivity.
Qed.

Lemma mem_In (x : string) (l : list string) : PyStr.mem x l = true <-> In x l.
Proof.
  unfold PyStr.mem. rewrite existsb_exists. split.
  - intros (y & Hy & E). apply String.eqb_eq in E. subst. exact Hy.
  - intros H. exists x. split; [exact H | apply String.eqb_refl].
Qed.

Lemma first_subvalue_split (value : string) :
  exists rest, PyStr.split PyStr.comma value = first_subvalue value :: rest.
Proof.
  induction value as [|a value (rest & IH)]; simpl.
  - exists []. reflexivity.
  - destruct (Ascii.eqb a PyStr.comma).
    + eexists. reflexivity.
    + rewrite IH. eexists. reflexivity.
Qed.

(** ** Dictionaries *)

Lemma get_set_same {V} (d : Dict.t V) k v : Dict.get (Dict.set d k v) k = Some v.
Proof.
  induction d as [|[k' v'] d IH]; simpl.
  - rewrite String.eqb_refl. reflexivity.
  - destruct (String.eqb k' k) eqn:E; simpl.
    + rewrite String.eqb_refl. reflexivity.
    + rewrite E. exact IH.
Qed.

Lemma get_set_other {V} (d : Dict.t V) k k' v :
  k <> k' -> Dict.get (Dict.set d k v) k' = Dict.get d k'.
Proof.
  intros Hk. apply String.eqb_neq in Hk.
  induction d as [|[k0 v0] d IH]; simpl.
  - rewrite Hk. reflexivity.
  - destruct (String.eqb k0 k) eqn:E; simpl.
    + apply String.eqb_eq in E. subst k0. rewrite Hk. reflexivity.
    + rewrite IH. reflexivity.
Qed.

Lemma get_set {V} (d : Dict.t V) k k' v :
  Dict.get (Dict.set d k v) k'
  = if String.eqb k k' then Some v else Dict.get d k'.
Proof.
  destruct (String.eqb k k') eqn:E.
  - apply String.eqb_eq in E. subst. apply get_set_same.
  - apply String.eqb_neq in E. apply get_set_other. exact E.
Qed.

(** After [d.update(other)] a key has the value [other] gives it last, or
    else the one it had. *)
Lemma get_update {V} (d other : Dict.t V) k :
  Dict.get (Dict.update d other) k
  = match Dict.get (rev other) k with
    | Some v => Some v
    | None => Dict.get d k
    end.
Proof.
  assert (Happ : forall (d1 d2 : Dict.t V),
             Dict.get (d1 ++ d2) k
             = match Dict.get d1 k with
               | Some v => Some v
               | None => Dict.get d2 k
               end).
  { intros d1 d2. induction d1 as [|[k1 v1] d1 IH]; simpl; [reflexivity|].
    destruct (String.eqb k1 k); [reflexivity | exact IH]. }
  unfold Dict.update. revert d.
  induction other as [|[k0 v0] other IH]; intros d; simpl; [reflexivity|].
  rewrite IH, Happ, get_set. simpl.
  destruct (Dict.get (rev other) k); [reflexivity|].
  destruct (String.eqb k0 k); reflexivity.
Qed.

Lemma keys_set {V} (d : Dict.t V) k v :
  Dict.keys (Dict.set d k v)
  = if existsb (String.eqb k) (Dict.keys d) then Dict.keys d
    else Dict.keys d ++ [k].
Proof.
  induction d as [|[k0 v0] d IH]; simpl; [reflexivity|].
  rewrite (String.eqb_sym k k0).
  destruct (String.eqb k0 k) eqn:E; simpl.
  - apply String.eqb_eq in E. subst. reflexivity.
  - rewrite IH. destruct (existsb (String.eqb k) (Dict.keys d)); reflexivity.
Qed.

Lemma NoDup_keys_set {V} (d : Dict.t V) k v :
  NoDup (Dict.keys d) -> NoDup (Dict.keys (Dict.set d k v)).
Proof.
  intros Hd. rewrite keys_set.
  destruct (existsb (String.eqb k) (Dict.keys d)) eqn:E; [exact Hd|].
  apply NoDup_app; [exact Hd | repeat constructor; intros [] |].
  intros x Hx [Hk|[]]. subst x.
  assert (existsb (String.eqb k) (Dict.keys d) = true); [|congruence].
  apply existsb_exists. exists k. split; [exact Hx | apply String.eqb_refl].
Qed.

Lemma NoDup_keys_update {V} (d other : Dict.t V) :
  NoDup (Dict.keys d) -> NoDup (Dict.keys (Dict.update d other)).
Proof.
  unfold Dict.update. revert d.
  induction other as [|[k v] other IH]; intros d Hd; simpl; [exact Hd|].
  apply IH. apply NoDup_keys_set. exact Hd.
Qed.

(** In a list of pairs with distinct keys the first and the last binding of
    a key are one. *)
Lemma get_rev {V} (d : Dict.t V) k :
  NoDup (Dict.keys d) -> Dict.get (rev d) k = Dict.get d k.
Proof.
  assert (Hnone : forall d' : Dict.t V,
             ~ In k (Dict.keys d') -> Dict.get d' k = None).
  { intros d'. induction d' as [|[k1 v1] d' IH]; simpl; intros Hk; [reflexivity|].
    destruct (String.eqb k1 k) eqn:E.
    - apply String.eqb_eq in E. tauto.
    - apply IH. tauto. }
  assert (Happ : forall (d1 d2 : Dict.t V),
             Dict.get (d1 ++ d2) k
             = match Dict.get d1 k with
               | Some v => Some v
               | None => Dict.get d2 k
               end).
  { intros d1 d2. induction d1 as [|[k1 v1] d1 IH]; simpl; [reflexivity|].
    destruct (String.eqb k1 k); [reflexivity | exact IH]. }
  induction d as [|[k0 v0] d IH]; intros Hd; simpl; [reflexivity|].
  inversion Hd as [|? ? Hk0 Hd']; subst.
  rewrite Happ, (IH Hd'). simpl.
  destruct (String.eqb k0 k) eqn:E.
  - apply String.eqb_eq in E. subst. rewrite (Hnone d Hk0). reflexivity.
  - destruct (Dict.get d k); reflexivity.
Qed.

Lemma get_None_iff {V} (d : Dict.t V) k :
  Dict.get d k = None <-> ~ In k (Dict.keys d).
Proof.
  induction d as [|[k0 v0] d IH]; simpl.
  - tauto.
  - destruct (String.eqb k0 k) eqn:E.
    + apply String.eqb_eq in E. split; [discriminate | tauto].
    + apply String.eqb_neq in E. rewrite IH. tauto.
Qed.

Lemma In_insert_sorted (x y : string) (l : list string) :
  In x (PyStr.insert_sorted y l) <-> x = y \/ In x l.
Proof.
  induction l as [|z l IH]; simpl.
  - intuition congruence.
  - destruct (String.leb y z); simpl; [intuition congruence|].
    rewrite IH. intuition congruence.
Qed.

Lemma In_sorted (x : string) (l : list string) :
  In x (PyStr.sorted l) <-> In x l.
Proof.
  induction l as [|y l IH]; simpl; [tauto|].
  rewrite In_insert_sorted, IH. intuition congruence.
Qed.

(** ** The check of names and types *)

Lemma pytype_eqb_eq (a b : pytype) : pytype_eqb a b = true <-> a = b.
Proof. destruct a, b; simpl; split; intros H; congruence. Qed.

Lemma check_options_cons (key : string) (value : pyval) (rest : Dict.t pyval) :
  check_options ((key, value) :: rest)
  = match Dict.get PARSEABLE_OPTIONS (option_of_key key) with
    | None => Raise (UnknownJobsDoneFileOption (option_of_key key))
    | Some expected_type =>
        if pytype_eqb (type_of value) expected_type then check_options rest
        else Raise (JobsDoneFileTypeError (option_of_key key)
                      (type_of value) expected_type)
    end.
Proof.
  cbn [check_options]. rewrite real_option_name_key. cbn [bind].
  destruct (Dict.get PARSEABLE_OPTIONS (option_of_key key)); [|reflexivity].
  destruct (pytype_eqb (type_of value) p); reflexivity.
Qed.

Lemma option_ok_iff (key : string) (value : pyval) :
  option_ok (key, value)
  <-> Dict.get PARSEABLE_OPTIONS (option_of_key key) = Some (type_of value).
Proof.
  unfold option_ok. simpl. rewrite real_option_name_key. split.
  - intros (n & E & H). injection E as <-. exact H.
  - intros H. eexists. split; [reflexivity | exact H].
Qed.

Lemma check_options_ok_iff (items : Dict.t pyval) :
  check_options items = Ok tt <-> Forall option_ok items.
Proof.
  induction items as [|[key value] items IH].
  - split; [constructor | reflexivity].
  - rewrite check_options_cons. split.
    + intros H.
      destruct (Dict.get PARSEABLE_OPTIONS (option_of_key key)) as [ty|] eqn:Eg;
        [|discriminate].
      destruct (pytype_eqb (type_of value) ty) eqn:Et; [|discriminate].
      apply pytype_eqb_eq in Et. subst ty.
      constructor; [apply option_ok_iff; exact Eg | apply IH; exact H].
    + intros H. inversion H as [|? ? Hok Hrest]; subst.
      apply option_ok_iff in Hok. rewrite Hok.
      rewrite (proj2 (pytype_eqb_eq _ _) eq_refl). apply IH. exact Hrest.
Qed.

Lemma check_options_skip (checked rest : Dict.t pyval) :
  Forall option_ok checked ->
  check_options (checked ++ rest) = check_options rest.
Proof.
  induction 1 as [|[key value] checked Hok _ IH]; simpl app; [reflexivity|].
  rewrite check_options_cons. apply option_ok_iff in Hok. rewrite Hok.
  rewrite (proj2 (pytype_eqb_eq _ _) eq_refl). exact IH.
Qed.

(** C8: the check accepts a file exactly when every key, its conditions
    stripped, names an option of the table and has a value of the type the
    table declares.  Otherwise it raises for the first key at fault:
    [UnknownJobsDoneFileOption] with the stripped name when the table does
    not have it, [JobsDoneFileTypeError] with the name, the obtained and the
    expected type when the type of the value differs, whatever the value
    holds.  The message of the former lists the names of the table, all and
    only them, in ascending order. *)
Theorem C8_check_options :
  forall items : Dict.t pyval,
    (check_options items = Ok tt <-> Forall option_ok items)
    /\ (forall checked key value rest,
          items = checked ++ (key, value) :: rest ->
          Forall option_ok checked ->
          let option_name := option_of_key key in
          real_option_name key = Ok option_name
          /\ match Dict.get PARSEABLE_OPTIONS option_name with
             | None =>
                 check_options items
                 = Raise (UnknownJobsDoneFileOption option_name)
             | Some expected_type =>
                 type_of value <> expected_type ->
                 check_options items
                 = Raise (JobsDoneFileTypeError option_name
                            (type_of value) expected_type)
             end)
    /\ (forall option_name, exists names,
          message (UnknownJobsDoneFileOption option_name)
          = Some ("Received unknown option " ++ PyStr.dq ++ option_name
                  ++ PyStr.dq ++ "." ++ PyStr.nl ++ PyStr.nl
                  ++ "Available options are:" ++ PyStr.nl
                  ++ PyStr.join PyStr.nl (map (fun o => "- " ++ o) names))%string
          /\ Sorted (fun a b => String.ltb a b = true) names
          /\ (forall n, In n names <-> Dict.get PARSEABLE_OPTIONS n <> None)).
Proof.
  intros items. split; [apply check_options_ok_iff|]. split.
  - intros checked key value rest -> Hchecked option_name.
    split; [apply real_option_name_key|].
    rewrite (check_options_skip _ _ Hchecked), check_options_cons.
    fold option_name.
    destruct (Dict.get PARSEABLE_OPTIONS option_name) as [ty|]; [|reflexivity].
    intros Hty. destruct (pytype_eqb (type_of value) ty) eqn:Et; [|reflexivity].
    apply pytype_eqb_eq in Et. contradiction.
  - intros option_name.
    exists (PyStr.sorted (Dict.keys PARSEABLE_OPTIONS)).
    split; [reflexivity|]. split.
    + vm_compute PyStr.sorted.
      repeat (constructor; try reflexivity).
    + intros n. rewrite In_sorted. rewrite get_None_iff.
      destruct (in_dec string_dec n (Dict.keys PARSEABLE_OPTIONS)); tauto.
Qed.

(** ** Conditions and options *)

Lemma condition_holdsb_iff (row : MatrixRow) (condition : string) :
  condition_holdsb row condition = true <-> condition_holds row condition.
Proof.
  unfold condition_holdsb, condition_holds.
  destruct (PyStr.split PyStr.dash condition) as [|n [|v [|x rest]]];
    try (split; [discriminate | intros (? & ? & ? & E & _); discriminate]).
  destruct (Dict.get (row_dict row) n) as [vs|] eqn:Eg.
  - rewrite mem_In. split.
    + intros H. exists n, v, vs. repeat split; assumption.
    + intros (n' & v' & vs' & E & G & H). congruence.
  - split; [discriminate|].
    intros (n' & v' & vs' & E & G & H). congruence.
Qed.

Lemma key_appliesb_iff (row : MatrixRow) (key : string) :
  key_appliesb row key = true <-> key_applies row key.
Proof.
  unfold key_appliesb, key_applies.
  rewrite forallb_forall, Forall_forall.
  split; intros H c Hc; apply condition_holdsb_iff, H, Hc.
Qed.

(** On a condition token [name-value] that names a variable of the row,
    [_Match] returns whether the token holds. *)
Lemma _Match_of_row (row : MatrixRow) (condition : string) :
  condition_of_row row condition ->
  _Match (row_dict row) condition = Ok (condition_holdsb row condition).
Proof.
  intros (n & v & E & G). unfold _Match, condition_holdsb, Dict.getitem.
  rewrite E. destruct (Dict.get (row_dict row) n); [reflexivity | congruence].
Qed.

Lemma Match_of_row (row : MatrixRow) (conditions : list string) :
  Forall (condition_of_row row) conditions ->
  Match row conditions = Ok (forallb (condition_holdsb row) conditions).
Proof.
  intros H. unfold Match.
  rewrite (mapM_ok _ (condition_holdsb row)).
  - cbn [bind]. f_equal.
    induction conditions as [|c cs IH]; simpl; [reflexivity|].
    inversion H; subst. rewrite IH by assumption. reflexivity.
  - intros c Hc. apply _Match_of_row.
    rewrite Forall_forall in H. apply H, Hc.
Qed.

(** One item of the re-read file: the option its key names is set to its
    value when the key applies to the row, and the job is left as it is
    otherwise. *)
Lemma set_option_of_row (row : MatrixRow) (job : JobsDoneJob)
    (key : string) (value : pyval) :
  key_of_row row key ->
  set_option row job (key, value)
  = Ok (if key_appliesb row key
        then setattr job (option_of_key key) (AVal value)
        else job).
Proof.
  intros Hkey. unfold set_option, key_appliesb, option_of_key.
  unfold key_of_row, conditions_of_key in *.
  destruct (PyStr.contains PyStr.colon key) eqn:Ec.
  - rewrite (index_last_last _ EmptyString) by apply split_not_nil.
    cbn [bind]. rewrite (Match_of_row _ _ Hkey). cbn [bind].
    destruct (forallb _ _); reflexivity.
  - rewrite (split_without_sep _ _ Ec). reflexivity.
Qed.

Lemma key_without_conditions (row : MatrixRow) (key : string) :
  PyStr.contains PyStr.colon key = false ->
  key_of_row row key /\ key_applies row key /\ option_of_key key = key.
Proof.
  intros Ec. unfold key_of_row, key_applies, conditions_of_key, option_of_key.
  rewrite (split_without_sep _ _ Ec). simpl. repeat split; constructor.
Qed.

(** Items that do not set an option leave it as it is. *)
Lemma set_options_unset (row : MatrixRow) (option_name : string)
    (items : Dict.t pyval) (job : JobsDoneJob) :
  Forall (key_of_row row) (Dict.keys items) ->
  Forall (fun key => ~ (option_of_key key = option_name /\ key_applies row key))
    (Dict.keys items) ->
  exists job', set_options row items job = Ok job'
               /\ getattr job' option_name = getattr job option_name.
Proof.
  revert job. induction items as [|[key value] items IH]; intros job Hk Hn.
  - exists job. split; reflexivity.
  - inversion Hk as [|? ? Hkey Hkeys]; inversion Hn as [|? ? Hnot Hnots]; subst.
    unfold set_options. cbn [foldM]. rewrite (set_option_of_row _ _ _ _ Hkey).
    cbn [bind]. fold (set_options row items).
    destruct (key_appliesb row key) eqn:Ea.
    + destruct (IH (setattr job (option_of_key key) (AVal value)) Hkeys Hnots)
        as (job' & Hrun & Hget).
      exists job'. split; [exact Hrun|]. rewrite Hget.
      apply get_set_other. intros E. apply Hnot. split; [exact E|].
      apply key_appliesb_iff. exact Ea.
    + apply IH; assumption.
Qed.

(** An item that applies, followed by items that do not set its option,
    decides the value of the option. *)
Lemma set_options_last (row : MatrixRow) (before after : Dict.t pyval)
    (key : string) (value : pyval) (job : JobsDoneJob) :
  Forall (key_of_row row) (Dict.keys (before ++ (key, value) :: after)) ->
  key_applies row key ->
  Forall (fun k => ~ (option_of_key k = option_of_key key /\ key_applies row k))
    (Dict.keys after) ->
  exists job', set_options row (before ++ (key, value) :: after) job = Ok job'
               /\ getattr job' (option_of_key key) = Some (AVal value).
Proof.
  revert job. induction before as [|[k v] before IH]; intros job Hk Ha Hn.
  - simpl in Hk. inversion Hk as [|? ? Hkey Hkeys]; subst.
    unfold set_options. cbn [app foldM].
    rewrite (set_option_of_row _ _ _ _ Hkey).
    rewrite (proj2 (key_appliesb_iff _ _) Ha). cbn [bind].
    destruct (set_options_unset row (option_of_key key) after
                (setattr job (option_of_key key) (AVal value)) Hkeys Hn)
      as (job' & Hrun & Hget).
    exists job'. split; [exact Hrun|]. rewrite Hget. apply get_set_same.
  - simpl in Hk. inversion Hk as [|? ? Hkey Hkeys]; subst.
    unfold set_options. cbn [app foldM].
    rewrite (set_option_of_row _ _ _ _ Hkey). cbn [bind].
    apply IH; assumption.
Qed.

Lemma Forall_keys_app {V} (P : string -> Prop) (d1 d2 : Dict.t V) :
  Forall P (Dict.keys (d1 ++ d2))
  <-> Forall P (Dict.keys d1) /\ Forall P (Dict.keys d2).
Proof. unfold Dict.keys. rewrite map_app. apply Forall_app. Qed.

(** The loop over the items of the re-read file, for a key [key] whose
    option no other key names: the option takes the value of [key] when
    [key] applies to the row and is left as it was when it does not. *)
Lemma set_options_conditioned :
  forall (row : MatrixRow) (before after : Dict.t pyval)
         (key : string) (value : pyval) (job : JobsDoneJob),
    Forall (key_of_row row) (Dict.keys (before ++ (key, value) :: after)) ->
    Forall (fun k => option_of_key k <> option_of_key key)
      (Dict.keys before ++ Dict.keys after) ->
    exists job',
      set_options row (before ++ (key, value) :: after) job = Ok job'
      /\ (key_applies row key ->
          getattr job' (option_of_key key) = Some (AVal value))
      /\ (~ key_applies row key ->
          getattr job' (option_of_key key) = getattr job (option_of_key key))
      /\ (PyStr.contains PyStr.colon key = false ->
          getattr job' key = Some (AVal value)).
Proof.
  intros row before after key value job Hkeys Hothers.
  apply Forall_app in Hothers as [Hbefore Hafter].
  destruct (key_appliesb row key) eqn:Ea.
  - apply key_appliesb_iff in Ea.
    destruct (set_options_last row before after key value job Hkeys Ea)
      as (job' & Hrun & Hget).
    { eapply Forall_impl; [|exact Hafter]. intros k Hk [E _]. exact (Hk E). }
    exists job'. repeat split.
    + exact Hrun.
    + intros _. exact Hget.
    + intros Hn. contradiction.
    + intros Ec. destruct (key_without_conditions row key Ec) as (_ & _ & E).
      rewrite E in Hget. exact Hget.
  - assert (Hn : ~ key_applies row key).
    { intros H. apply key_appliesb_iff in H. congruence. }
    destruct (set_options_unset row (option_of_key key)
                (before ++ (key, value) :: after) job Hkeys)
      as (job' & Hrun & Hget).
    { apply Forall_keys_app. split.
      - eapply Forall_impl; [|exact Hbefore]. intros k Hk [E _]. exact (Hk E).
      - constructor; [intros [_ H]; exact (Hn H)|].
        eapply Forall_impl; [|exact Hafter]. intros k Hk [E _]. exact (Hk E). }
    exists job'. repeat split.
    + exact Hrun.
    + intros H. contradiction.
    + intros _. exact Hget.
    + intros Ec. destruct (key_without_conditions row key Ec) as (_ & H & _).
      contradiction.
Qed.

(** C9, as the code has it: the items of the re-read file are applied in
    the order in which its dict yields them ([iteritems()]), which need not
    be the order in which the file has them.  When a key that applies to the
    row names the same option as a key that applies and is yielded later,
    the option first holds the value of the earlier key, and at the end of
    the loop it holds the value of the later one, whole and alone, whatever
    the two values are, provided no key that applies is yielded after it
    with that option again. *)
Theorem C9_last_write_wins :
  forall (row : MatrixRow) (before between after : Dict.t pyval)
         (key1 key2 : string) (value1 value2 : pyval) (job : JobsDoneJob),
    Forall (key_of_row row)
      (Dict.keys (before ++ (key1, value1) :: between ++ (key2, value2) :: after)) ->
    option_of_key key1 = option_of_key key2 ->
    key_applies row key1 ->
    key_applies row key2 ->
    Forall (fun k => ~ (option_of_key k = option_of_key key2 /\ key_applies row k))
      (Dict.keys after) ->
    exists job1 job2,
      set_options row (before ++ [(key1, value1)]) job = Ok job1
      /\ getattr job1 (option_of_key key2) = Some (AVal value1)
      /\ set_options row (between ++ (key2, value2) :: after) job1 = Ok job2
      /\ set_options row
           (before ++ (key1, value1) :: between ++ (key2, value2) :: after) job
         = Ok job2
      /\ getattr job2 (option_of_key key2) = Some (AVal value2).
Proof.
  intros row before between after key1 key2 value1 value2 job Hkeys E H1 H2 Hafter.
  apply Forall_keys_app in Hkeys as [Hk_before Hk_rest].
  simpl in Hk_rest. inversion Hk_rest as [|? ? Hk1 Hk_tail]; subst.
  destruct (set_options_last row before [] key1 value1 job) as (job1 & Hrun1 & Hget1).
  { apply Forall_keys_app. split; [exact Hk_before|]. repeat constructor. exact Hk1. }
  { exact H1. }
  { constructor. }
  destruct (set_options_last row between after key2 value2 job1 Hk_tail H2 Hafter)
    as (job2 & Hrun2 & Hget2).
  exists job1, job2. rewrite <- E at 1. repeat split; try assumption.
  change (before ++ (key1, value1) :: between ++ (key2, value2) :: after)
    with (before ++ [(key1, value1)] ++ (between ++ (key2, value2) :: after)).
  rewrite app_assoc. unfold set_options in *.
  rewrite foldM_app, Hrun1. exact Hrun2.
Qed.

(** ** Reading a file *)

Section ReadingProperties.

Variable lib : Library.

Lemma existsb_id_true (l : list bool) :
  existsb (fun b => b) l = true <-> In true l.
Proof.
  rewrite existsb_exists. split.
  - intros (b & Hb & ->). exact Hb.
  - intros H. exists true. split; [exact H | reflexivity].
Qed.

Lemma matches_of_patterns (text : string) (patterns : list string) :
  (forall p, In p patterns -> exists b, re_match lib p text = Ok b) ->
  exists matches,
    mapM (fun p => re_match lib p text) patterns = Ok matches
    /\ Forall2 (fun p b => re_match lib p text = Ok b) patterns matches.
Proof.
  induction patterns as [|p patterns IH]; intros Hre.
  - exists []. split; [reflexivity | constructor].
  - destruct (Hre p (or_introl eq_refl)) as (b & Hb).
    destruct IH as (matches & Hrun & Hall).
    { intros q Hq. apply Hre. right. exact Hq. }
    exists (b :: matches). split; [|constructor; assumption].
    cbn [mapM]. rewrite Hb, Hrun. reflexivity.
Qed.

(** The filter on a list of patterns that are strings and that [re]
    accepts: the matches are taken one by one. *)
Lemma branch_accepted_patterns (jd_data : Dict.t pyval) (repository : Repository)
    (patterns : list string) :
  Dict.get_default jd_data "branch_patterns" (PList [PStr ".*"])
  = PList (map PStr patterns) ->
  (forall p, In p patterns -> exists b, re_match lib p (branch repository) = Ok b) ->
  exists matches,
    branch_accepted lib jd_data repository = Ok (existsb (fun b => b) matches)
    /\ Forall2 (fun p b => re_match lib p (branch repository) = Ok b)
         patterns matches.
Proof.
  intros Hget Hre. unfold branch_accepted. rewrite Hget. cbn [iter bind].
  rewrite mapM_map. cbn [match_pattern].
  destruct (matches_of_patterns _ _ Hre) as (matches & Hrun & Hall).
  exists matches. rewrite Hrun. split; [reflexivity | exact Hall].
Qed.

(** C3: for a file that passes the check of names and types, whose
    [branch_patterns], when given, is a list of strings that [re] accepts
    as patterns: the branch filter accepts if and only if [re.match], which
    matches at the start of the string, matches the branch of the
    repository for at least one pattern of [branch_patterns], or for the
    single pattern [.*] when the file gives none; and when it does not
    accept, [CreateFromYAML] returns the empty list of jobs and does not
    raise. *)
Theorem C3_branch_filter :
  forall (yaml_contents : string) (loaded : pyval) (jd_data : Dict.t pyval)
         (repository : Repository) (patterns : list string),
    yaml_load_jobs_done lib yaml_contents = Ok loaded ->
    iteritems (if truthy loaded then loaded else PDict []) = Ok jd_data ->
    Forall option_ok jd_data ->
    match Dict.get jd_data "branch_patterns" with
    | Some given => given = PList (map PStr patterns)
    | None => patterns = [".*"]
    end ->
    (forall p, In p patterns -> exists b, re_match lib p (branch repository) = Ok b) ->
    exists accepted,
      branch_accepted lib jd_data repository = Ok accepted
      /\ (accepted = true <->
          exists p, In p patterns /\ re_match lib p (branch repository) = Ok true)
      /\ (accepted = false ->
          CreateFromYAML lib (Some yaml_contents) repository = Ok []).
Proof.
  intros yaml_contents loaded jd_data repository patterns
         Hload Hitems Hok Hpatterns Hre.
  assert (Hget : Dict.get_default jd_data "branch_patterns" (PList [PStr ".*"])
                 = PList (map PStr patterns)).
  { unfold Dict.get_default.
    destruct (Dict.get jd_data "branch_patterns"); subst; reflexivity. }
  destruct (branch_accepted_patterns jd_data repository patterns Hget Hre)
    as (matches & Hrun & Hall).
  exists (existsb (fun b => b) matches). split; [exact Hrun|]. split.
  - rewrite existsb_id_true. clear Hrun Hre Hget Hpatterns. split.
    + intros Hin. induction Hall as [|p b ps bs Hp _ IH]; [destruct Hin|].
      destruct Hin as [->|Hin].
      * exists p. split; [left; reflexivity | exact Hp].
      * destruct (IH Hin) as (q & Hq & Hm). exists q. split; [right|]; assumption.
    + intros (q & Hq & Hm). induction Hall as [|p b ps bs Hp _ IH]; [destruct Hq|].
      destruct Hq as [->|Hq].
      * left. congruence.
      * right. apply IH. exact Hq.
  - intros Hno. unfold CreateFromYAML. rewrite Hload. cbn [bind].
    rewrite Hitems. cbn [bind].
    rewrite (proj2 (check_options_ok_iff jd_data) Hok). cbn [bind].
    rewrite Hrun, Hno. reflexivity.
Qed.

(** What [__init__] and the loop over the rows leave in the job of a file
    without options. *)
Lemma empty_job_fields (repository : Repository) :
  getattr (empty_job repository) "repository" = Some (ARepo repository)
  /\ getattr (empty_job repository) "matrix_row" = Some (AVal (PDict []))
  /\ (forall option_name,
         Dict.get PARSEABLE_OPTIONS option_name <> None ->
         getattr (empty_job repository) option_name = Some (AVal PNone)).
Proof.
  split; [reflexivity|]. split; [reflexivity|].
  intros option_name Hin.
  assert (H : In option_name (Dict.keys PARSEABLE_OPTIONS)).
  { destruct (in_dec string_dec option_name (Dict.keys PARSEABLE_OPTIONS)) as [H|H];
      [exact H|]. apply get_None_iff in H. contradiction. }
  vm_compute in H.
  repeat (destruct H as [<-|H]; [reflexivity|]). destruct H.
Qed.

(** C2, as the code has it: a file that is there and holds no option (the
    loader returns nothing, or an empty value) gives exactly one job, for
    the one row of the matrix without variables, and every option of that
    job is [None]; [re] is taken to match the pattern [.*] on the branch, as
    it does on every string.  A file that is not there, [None], gives no
    job. *)
Theorem C2_empty_file_one_job :
  forall (yaml_contents : string) (loaded : pyval) (repository : Repository),
    yaml_load_jobs_done lib yaml_contents = Ok loaded ->
    truthy loaded = false ->
    re_match lib ".*" (branch repository) = Ok true ->
    CreateFromYAML lib (Some yaml_contents) repository
    = Ok [empty_job repository]
    /\ getattr (empty_job repository) "repository" = Some (ARepo repository)
    /\ getattr (empty_job repository) "matrix_row" = Some (AVal (PDict []))
    /\ (forall option_name,
           Dict.get PARSEABLE_OPTIONS option_name <> None ->
           getattr (empty_job repository) option_name = Some (AVal PNone))
    /\ CreateFromYAML lib None repository = Ok [].
Proof.
  intros yaml_contents loaded repository Hload Hempty Hre.
  split; [|split; [|split; [|split]]]; try apply empty_job_fields;
    [|reflexivity].
  unfold CreateFromYAML. rewrite Hload. cbn [bind]. rewrite Hempty.
  cbn [iteritems bind check_options].
  unfold branch_accepted. cbn [Dict.get_default Dict.get iter bind mapM match_pattern].
  rewrite Hre. reflexivity.
Qed.

End ReadingProperties.

(** ** The bindings of a row *)

Lemma In_set {V} (d : Dict.t V) k v (kv : string * V) :
  In kv (Dict.set d k v) -> kv = (k, v) \/ In kv d.
Proof.
  induction d as [|[k0 v0] d IH]; simpl.
  - intros [<-|[]]. left. reflexivity.
  - destruct (String.eqb k0 k); simpl; intros [<-|H]; auto.
    destruct (IH H); auto.
Qed.

Lemma In_update {V} (d other : Dict.t V) (kv : string * V) :
  In kv (Dict.update d other) -> In kv d \/ In kv other.
Proof.
  unfold Dict.update. revert d.
  induction other as [|[k v] other IH]; intros d; simpl; [auto|].
  intros H. destruct (IH _ H) as [H'|H']; [|auto].
  destruct (In_set _ _ _ _ H'); auto.
Qed.

Lemma get_In {V} (d : Dict.t V) k v : Dict.get d k = Some v -> In (k, v) d.
Proof.
  induction d as [|[k0 v0] d IH]; simpl; [discriminate|].
  destruct (String.eqb k0 k) eqn:E.
  - apply String.eqb_eq in E. intros [= <-]. subst. left. reflexivity.
  - intros H. right. apply IH. exact H.
Qed.

Lemma get_map_values {V W} (f : V -> W) (d : Dict.t V) k :
  Dict.get (map (fun ij => (fst ij, f (snd ij))) d) k
  = option_map f (Dict.get d k).
Proof.
  induction d as [|[k0 v0] d IH]; simpl; [reflexivity|].
  destruct (String.eqb k0 k); [reflexivity | exact IH].
Qed.

Lemma get_of_pairs {V} (pairs : list (string * V)) k :
  Dict.get (Dict.of_pairs pairs) k = Dict.get (rev pairs) k.
Proof.
  unfold Dict.of_pairs. rewrite get_update.
  destruct (Dict.get (rev pairs) k); reflexivity.
Qed.

Lemma NoDup_keys_of_pairs {V} (pairs : list (string * V)) :
  NoDup (Dict.keys (Dict.of_pairs pairs)).
Proof. apply NoDup_keys_update. constructor. Qed.

(** A combination takes each of its values in the pool of its place. *)
Lemma In_lexicographic_product {A} (pools : list (list A)) (ys : list A) :
  In ys (lexicographic_product pools) -> Forall2 (@In A) ys pools.
Proof.
  revert ys. induction pools as [|pool pools IH]; intros ys; simpl.
  - intros [<-|[]]. constructor.
  - rewrite in_flat_map. intros (y & Hy & H).
    apply in_map_iff in H as (ys' & <- & H').
    constructor; [exact Hy | apply IH; exact H'].
Qed.

Lemma In_combine_matrix {B} (f : string -> B) (matrix : Dict.t (list string))
    (values : list string) (variable : string) (b : B) :
  Forall2 (@In string) values (Dict.values matrix) ->
  In (variable, b) (combine (Dict.keys matrix) (map f values)) ->
  exists pool value,
    In (variable, pool) matrix /\ In value pool /\ b = f value.
Proof.
  revert values. induction matrix as [|[k pool] matrix IH]; intros values Hv Hin.
  - destruct Hin.
  - simpl in Hv. inversion Hv as [|v ? vs ? Hvp Hvs]; subst.
    simpl in Hin. destruct Hin as [[= <- <-]|Hin].
    + exists pool, v. repeat split; [left; reflexivity | exact Hvp].
    + destruct (IH vs Hvs Hin) as (pool' & value & H1 & H2 & H3).
      exists pool', value. repeat split; [right|..]; assumption.
Qed.

(** What a row made from a combination of the matrix holds: distinct names,
    each with the comma-separated sub-values of a value of its list. *)
Lemma row_of_matrix (matrix : Dict.t (list string)) (values : list string) :
  In values (lexicographic_product (Dict.values matrix)) ->
  NoDup (Dict.keys (row_dict (row_of (Dict.keys matrix) values)))
  /\ (forall variable subvalues,
         In (variable, subvalues) (row_dict (row_of (Dict.keys matrix) values)) ->
         exists pool value,
           In (variable, pool) matrix /\ In value pool
           /\ subvalues = PyStr.split PyStr.comma value).
Proof.
  intros Hin. split; [apply NoDup_keys_of_pairs|].
  intros variable subvalues H. cbn [row_of row_dict] in H.
  apply In_update in H as [[]|H].
  eapply In_combine_matrix; [|exact H].
  apply In_lexicographic_product. exact Hin.
Qed.

(** [AsDict] on a row whose names all have a value. *)
Lemma AsDict_first_values (row : MatrixRow) :
  (forall variable subvalues,
      In (variable, subvalues) (row_dict row) -> subvalues <> []) ->
  AsDict row
  = Ok (Dict.of_pairs
          (map (fun ij => (fst ij, hd EmptyString (snd ij))) (row_dict row))).
Proof.
  intros Hne. unfold AsDict.
  rewrite (mapM_ok _ (fun ij => (fst ij, hd EmptyString (snd ij))));
    [reflexivity|].
  intros [variable subvalues] Hin. specialize (Hne _ _ Hin).
  destruct subvalues; [contradiction | reflexivity].
Qed.

Lemma get_first_values (d : Dict.t (list string)) (token : string) :
  NoDup (Dict.keys d) ->
  Dict.get (Dict.of_pairs (map (fun ij => (fst ij, hd EmptyString (snd ij))) d)) token
  = option_map (hd EmptyString) (Dict.get d token).
Proof.
  intros Hd. rewrite get_of_pairs, <- map_rev, get_map_values, (get_rev _ _ Hd).
  reflexivity.
Qed.

Lemma keys_combine {V} (names : list string) (values : list V) :
  length names = length values -> Dict.keys (combine names values) = names.
Proof.
  revert values. induction names as [|n names IH]; intros [|v values] H;
    simpl in *; try discriminate; [reflexivity|].
  f_equal. apply IH. lia.
Qed.

(** A row made from a combination of the matrix binds every variable. *)
Lemma row_of_binds (matrix : Dict.t (list string)) (values : list string)
    (variable : string) (pool : list string) :
  In values (lexicographic_product (Dict.values matrix)) ->
  In (variable, pool) matrix ->
  Dict.get (row_dict (row_of (Dict.keys matrix) values)) variable <> None.
Proof.
  intros Hin Hvar. cbn [row_of row_dict]. rewrite get_of_pairs, get_None_iff.
  intros Hno. apply Hno. unfold Dict.keys at 1. rewrite map_rev, <- in_rev.
  fold (Dict.keys (combine (Dict.keys matrix)
                     (map (PyStr.split PyStr.comma) values))).
  rewrite keys_combine.
  - unfold Dict.keys. apply in_map_iff. exists (variable, pool). auto.
  - apply In_lexicographic_product, Forall2_length in Hin.
    unfold Dict.keys, Dict.values in *. rewrite !length_map in *. lia.
Qed.

(** C6: for a row of a matrix, the file is re-read through [format] with
    one mapping: each variable of the matrix is bound to the first of the
    comma-separated sub-values of the value the row takes for it, and a
    token that is no variable of the row is bound to the branch of the
    repository if it is [branch], to its name if it is [name], and is not
    bound otherwise. *)
Theorem C6_format_context :
  forall (lib : Library) (matrix : Dict.t (list string))
         (rows : list MatrixRow) (row : MatrixRow)
         (jd_data : Dict.t pyval) (repository : Repository),
    CreateMatrixRows (matrix_of matrix) = Ok rows ->
    In row rows ->
    exists bindings,
      AsDict row = Ok bindings
      /\ reread lib jd_data repository row
         = (formatted <- str_format lib
                           (PyStr.drop_last (yaml_dump lib (PDict jd_data)))
                           (format_dict_of repository bindings) ;;
            yaml_load lib formatted)
      /\ (forall variable pool,
             In (variable, pool) matrix ->
             Dict.get (row_dict row) variable <> None)
      /\ (forall token subvalues,
             Dict.get (row_dict row) token = Some subvalues ->
             exists pool value,
               In (token, pool) matrix /\ In value pool
               /\ subvalues = PyStr.split PyStr.comma value
               /\ Dict.get bindings token = Some (first_subvalue value)
               /\ Dict.get (format_dict_of repository bindings) token
                  = Some (first_subvalue value))
      /\ (forall token,
             Dict.get (row_dict row) token = None ->
             Dict.get bindings token = None
             /\ Dict.get (format_dict_of repository bindings) token
                = if String.eqb token "branch" then Some (branch repository)
                  else if String.eqb token "name" then Some (name repository)
                  else None).
Proof.
  intros lib matrix rows row jd_data repository Hrows Hrow.
  rewrite CreateMatrixRows_matrix_of in Hrows. injection Hrows as <-.
  apply in_map_iff in Hrow as (values & <- & Hvalues).
  destruct (row_of_matrix matrix values Hvalues) as [Hnodup Hsub].
  set (row := row_of (Dict.keys matrix) values) in *.
  assert (Hne : forall variable subvalues,
             In (variable, subvalues) (row_dict row) -> subvalues <> []).
  { intros variable subvalues H.
    destruct (Hsub _ _ H) as (pool & value & _ & _ & ->). apply split_not_nil. }
  pose proof (AsDict_first_values row Hne) as Hdict.
  set (bindings := Dict.of_pairs
                     (map (fun ij => (fst ij, hd EmptyString (snd ij)))
                        (row_dict row))) in *.
  assert (Hget : forall token,
             Dict.get bindings token
             = option_map (hd EmptyString) (Dict.get (row_dict row) token)).
  { intros token. apply get_first_values. exact Hnodup. }
  assert (Hctx : forall token,
             Dict.get (format_dict_of repository bindings) token
             = match Dict.get bindings token with
               | Some v => Some v
               | None =>
                   if String.eqb token "branch" then Some (branch repository)
                   else if String.eqb token "name" then Some (name repository)
                   else None
               end).
  { intros token. unfold format_dict_of. rewrite get_update.
    rewrite (get_rev bindings token) by apply NoDup_keys_of_pairs.
    destruct (Dict.get bindings token); [reflexivity|].
    cbn [Dict.get]. rewrite (String.eqb_sym "branch"), (String.eqb_sym "name").
    reflexivity. }
  exists bindings. split; [exact Hdict|]. split.
  { unfold reread. rewrite Hdict. reflexivity. }
  split.
  { intros variable pool Hvar. eapply row_of_binds; eassumption. }
  split.
  - intros token subvalues Htoken.
    destruct (Hsub _ _ (get_In _ _ _ Htoken)) as (pool & value & H1 & H2 & H3).
    exists pool, value. repeat split; try assumption.
    + rewrite Hget, Htoken. cbn [option_map]. rewrite H3.
      destruct (first_subvalue_split value) as (rest & ->). reflexivity.
    + rewrite Hctx, Hget, Htoken. cbn [option_map]. rewrite H3.
      destruct (first_subvalue_split value) as (rest & ->). reflexivity.
  - intros token Htoken. split.
    + rewrite Hget, Htoken. reflexivity.
    + rewrite Hctx, Hget, Htoken. reflexivity.
Qed.

(** ** Configuring a generator *)

Section ConfigureProperties.

Import JobGenerator.

Variable method_name : string -> string.

Lemma resets_app (log log' : list call) :
  resets (log ++ log') = resets log + resets log'.
Proof. unfold resets. rewrite filter_app, length_app. reflexivity. Qed.

(** Forwarding an option never resets the generator. *)
Lemma forward_resets (generator : Generator) (job : JobsDoneJob)
    (option_name : string) (log : list call) :
  resets (snd (forward method_name generator job option_name log)) = resets log.
Proof.
  unfold forward.
  destruct (getattr job option_name) as [[[]|]|];
    try reflexivity;
    destruct (PyStr.mem _ _); cbn [invoke raise snd];
    rewrite ?resets_app; cbn; lia.
Qed.

Lemma for_each_forward_resets (generator : Generator) (job : JobsDoneJob)
    (option_names : list string) (log : list call) :
  resets (snd (for_each option_names (forward method_name generator job) log))
  = resets log.
Proof.
  revert log. induction option_names as [|o os IH]; intros log; [reflexivity|].
  cbn [for_each]. unfold then_.
  pose proof (forward_resets generator job o log) as Ho.
  destruct (forward method_name generator job o log) as [[[]|e] log'];
    cbn [snd] in *.
  - rewrite IH. exact Ho.
  - exact Ho.
Qed.

Lemma for_each_nothing (generator : Generator) (job : JobsDoneJob)
    (option_names : list string) (log : list call) :
  (forall o, In o option_names ->
             getattr job o = None \/ getattr job o = Some (AVal PNone)) ->
  for_each option_names (forward method_name generator job) log = (Ok tt, log).
Proof.
  induction option_names as [|o os IH]; intros Hempty; [reflexivity|].
  cbn [for_each]. unfold then_, forward at 1.
  destruct (Hempty o (or_introl eq_refl)) as [-> | ->]; cbn [ret];
    apply IH; intros o' Ho'; apply Hempty; right; exact Ho'.
Qed.

(** C10: a call of [Configure] makes exactly one call of the reset method of
    the generator, for every generator and every job, whether options are
    forwarded or an option the generator lacks makes the call raise; when no
    forwardable option of the job holds a value, the reset is the one call
    the generator receives. *)
Theorem C10_Configure_resets_once :
  forall (generator : Generator) (job : JobsDoneJob),
    (forall log,
        resets (snd (Configure method_name generator job log)) = S (resets log))
    /\ resets (snd (Configure method_name generator job [])) = 1
    /\ ((forall o, In o (Dict.keys GENERATOR_OPTIONS) ->
                   getattr job o = None \/ getattr job o = Some (AVal PNone)) ->
        Configure method_name generator job [] = (Ok tt, [CallReset])).
Proof.
  intros generator job.
  assert (H : forall log,
             resets (snd (Configure method_name generator job log))
             = S (resets log)).
  { intros log. unfold Configure, then_. cbn [invoke].
    rewrite for_each_forward_resets, resets_app. cbn. lia. }
  split; [exact H|]. split; [apply H|].
  intros Hempty. unfold Configure, then_. cbn [invoke app].
  apply for_each_nothing. exact Hempty.
Qed.

End ConfigureProperties.


(** ** The job of a row *)

(** A row [CreateMatrixRows] returns is made from a combination of the
    matrix. *)
Lemma row_of_rows (matrix : Dict.t (list string)) (rows : list MatrixRow)
    (row : MatrixRow) :
  CreateMatrixRows (matrix_of matrix) = Ok rows ->
  In row rows ->
  exists values,
    In values (lexicographic_product (Dict.values matrix))
    /\ row = row_of (Dict.keys matrix) values.
Proof.
  intros Hrows Hrow.
  rewrite CreateMatrixRows_matrix_of in Hrows. injection Hrows as <-.
  apply in_map_iff in Hrow as (values & <- & Hvalues).
  exists values. split; [exact Hvalues | reflexivity].
Qed.

(** [AsDict] does not raise on it. *)
Lemma AsDict_of_rows (matrix : Dict.t (list string)) (rows : list MatrixRow)
    (row : MatrixRow) :
  CreateMatrixRows (matrix_of matrix) = Ok rows ->
  In row rows ->
  exists bindings, AsDict row = Ok bindings.
Proof.
  intros Hrows Hrow.
  destruct (row_of_rows _ _ _ Hrows Hrow) as (values & Hvalues & ->).
  eexists. apply AsDict_first_values.
  intros variable subvalues H.
  destruct (proj2 (row_of_matrix matrix values Hvalues) _ _ H)
    as (pool & value & _ & _ & ->).
  apply split_not_nil.
Qed.

(** A job just made holds [None] for every option of the table. *)
Lemma row_job_options (repository : Repository) (bindings : Dict.t string)
    (option_name : string) :
  Dict.get PARSEABLE_OPTIONS option_name <> None ->
  getattr (row_job repository bindings) option_name = Some (AVal PNone).
Proof.
  intros Hin.
  assert (H : In option_name (Dict.keys PARSEABLE_OPTIONS)).
  { destruct (in_dec string_dec option_name (Dict.keys PARSEABLE_OPTIONS)) as [H|H];
      [exact H|]. apply get_None_iff in H. contradiction. }
  vm_compute in H.
  repeat (destruct H as [<-|H]; [reflexivity|]). destruct H.
Qed.

(** The job of a row of a file with options: the options of the re-read
    file set on the job just made. *)
Lemma create_job_items (lib : Library) (jd_data : Dict.t pyval)
    (repository : Repository) (row : MatrixRow) (bindings : Dict.t string)
    (items : Dict.t pyval) :
  jd_data <> [] ->
  AsDict row = Ok bindings ->
  reread lib jd_data repository row = Ok (PDict items) ->
  create_job lib jd_data repository row
  = set_options row items (row_job repository bindings).
Proof.
  intros Hdata Hdict Hread. unfold create_job. rewrite Hdict. cbn [bind].
  destruct jd_data as [|item jd_data]; [contradiction|].
  cbn [truthy negb]. rewrite Hread. reflexivity.
Qed.

(** C4: take a row that [CreateMatrixRows] returns for a matrix, a file
    with options, and in the file as re-read for the row a key [key] and the
    option it names, an option of the table that no other key names, the
    condition tokens of all keys being [name-value] tokens on variables of
    the row.  Then the job of the row is made, and its option holds the
    value of [key] if every condition token of [key] has its value among the
    comma-separated sub-values the row retains for its variable, and [None]
    if not.  A key without condition tokens always applies. *)
Theorem C4_conditioned_option :
  forall (lib : Library) (matrix : Dict.t (list string))
         (rows : list MatrixRow) (row : MatrixRow)
         (jd_data : Dict.t pyval) (repository : Repository)
         (before after : Dict.t pyval) (key : string) (value : pyval),
    CreateMatrixRows (matrix_of matrix) = Ok rows ->
    In row rows ->
    jd_data <> [] ->
    reread lib jd_data repository row
    = Ok (PDict (before ++ (key, value) :: after)) ->
    Forall (key_of_row row) (Dict.keys (before ++ (key, value) :: after)) ->
    Forall (fun k => option_of_key k <> option_of_key key)
      (Dict.keys before ++ Dict.keys after) ->
    Dict.get PARSEABLE_OPTIONS (option_of_key key) <> None ->
    exists job,
      create_job lib jd_data repository row = Ok job
      /\ (key_applies row key ->
          getattr job (option_of_key key) = Some (AVal value))
      /\ (~ key_applies row key ->
          getattr job (option_of_key key) = Some (AVal PNone))
      /\ (PyStr.contains PyStr.colon key = false -> key_applies row key).
Proof.
  intros lib matrix rows row jd_data repository before after key value
         Hrows Hrow Hdata Hread Hkeys Hothers Hoption.
  destruct (AsDict_of_rows _ _ _ Hrows Hrow) as (bindings & Hdict).
  rewrite (create_job_items lib jd_data repository row bindings _
             Hdata Hdict Hread).
  destruct (set_options_conditioned row before after key value
              (row_job repository bindings) Hkeys Hothers)
    as (job & Hrun & Hset & Hunset & _).
  exists job. split; [exact Hrun|]. split; [exact Hset|]. split.
  - intros Hno. rewrite (Hunset Hno). apply row_job_options. exact Hoption.
  - intros Ec. apply (key_without_conditions row key Ec).
Qed.

(* ================================================================= *)
(** * The examples of the documentation *)

(** The matrix of the comment on [PARSEABLE_OPTIONS]: four rows, [planet]
    varying slowest. *)
Example matrix_planet_moon :
  CreateMatrixRows
    (matrix_of [("planet", ["earth"; "mars"]); ("moon", ["europa"; "ganymede"])])
  = Ok [ {| row_dict := [("planet", ["earth"]); ("moon", ["europa"])] |};
         {| row_dict := [("planet", ["earth"]); ("moon", ["ganymede"])] |};
         {| row_dict := [("planet", ["mars"]); ("moon", ["europa"])] |};
         {| row_dict := [("planet", ["mars"]); ("moon", ["ganymede"])] |} ].
Proof. reflexivity. Qed.

(** A value with two sub-values: the row retains both, [AsDict] the first. *)
Example row_with_sub_values :
  row_dict (row_of ["planet"] ["earth,terra"]) = [("planet", ["earth"; "terra"])]
  /\ AsDict (row_of ["planet"] ["earth,terra"]) = Ok [("planet", "earth")]
  /\ Match (row_of ["planet"] ["earth,terra"]) ["planet-terra"] = Ok true
  /\ Match (row_of ["planet"] ["earth,terra"]) ["planet-mars"] = Ok false.
Proof. repeat split. Qed.

(** A matrix whose value is a string gives one row for each character. *)
Example matrix_of_a_string :
  CreateMatrixRows [("planet", PStr "ab")]
  = Ok [ {| row_dict := [("planet", ["a"])] |};
         {| row_dict := [("planet", ["b"])] |} ].
Proof. reflexivity. Qed.

(** Conditions that [Match] cannot read make it raise. *)
Example Match_raises :
  Match earth ["planet-earth-x"] = Raise ValueError
  /\ Match earth ["planet-mars"; "moon-europa"] = Raise (KeyError "moon").
Proof. split; reflexivity. Qed.

Example unknown_option :
  check_options [("planet-earth:junit_patterns", PList []);
                 ("bogus_option", PList [PStr "1"])]
  = Raise (UnknownJobsDoneFileOption "bogus_option").
Proof. reflexivity. Qed.

Example option_of_bad_type :
  check_options [("planet-earth:junit_patterns", PStr "x.xml");
                 ("bogus_option", PList [PStr "1"])]
  = Raise (JobsDoneFileTypeError "junit_patterns" TStr TList).
Proof. reflexivity. Qed.

Example sorted_option_names :
  PyStr.sorted (Dict.keys PARSEABLE_OPTIONS)
  = ["boosttest_patterns"; "branch_patterns"; "build_batch_commands";
     "build_shell_commands"; "description_regex"; "jsunit_patterns";
     "junit_patterns"; "matrix"; "notify_stash"; "parameters"].
Proof. reflexivity. Qed.

(** The key [planet-earth:junit_patterns] sets the option on the row for
    [earth] and not on the row for [mars]. *)
Example conditioned_option_by_row :
  (exists job,
      set_options earth [("planet-earth:junit_patterns", PList [PStr "x.xml"])]
        JobsDoneJob_init = Ok job
      /\ getattr job "junit_patterns" = Some (AVal (PList [PStr "x.xml"])))
  /\ set_options (row_of ["planet"] ["mars"])
       [("planet-earth:junit_patterns", PList [PStr "x.xml"])] JobsDoneJob_init
     = Ok JobsDoneJob_init.
Proof. split; [eexists; split|]; reflexivity. Qed.

(** A file whose patterns do not match the branch gives no job. *)
Example branch_not_matched :
  CreateFromYAML
    (library_of (PDict [("branch_patterns", PList [PStr "release-"])]))
    (Some "branch_patterns: [release-]") space
  = Ok [].
Proof. reflexivity. Qed.

(** A generator without the method for an option that is set: the call
    raises after the one reset. *)
Example Configure_raises :
  JobGenerator.Configure (fun o => ("Set_" ++ o)%string)
    {| JobGenerator.methods := ["Set_parameters"] |}
    (setattr (setattr JobsDoneJob_init "parameters" (AVal (PList [])))
       "notify_stash" (AVal (PDict [])))
    []
  = (Raise (JobGeneratorAttributeError "notify_stash"), [JobGenerator.CallReset]).
Proof. reflexivity. Qed.

(* ================================================================= *)
(** * The statements at concrete inputs *)

(** C2 on the empty text, which loads as no document. *)
Lemma C2_empty_file_one_job_witness :
  CreateFromYAML (library_of PNone) (Some EmptyString) space
  = Ok [empty_job space]
  /\ getattr (empty_job space) "repository" = Some (ARepo space)
  /\ getattr (empty_job space) "matrix_row" = Some (AVal (PDict []))
  /\ (forall option_name,
         Dict.get PARSEABLE_OPTIONS option_name <> None ->
         getattr (empty_job space) option_name = Some (AVal PNone))
  /\ CreateFromYAML (library_of PNone) None space = Ok [].
Proof.
  apply (C2_empty_file_one_job (library_of PNone) EmptyString PNone space);
    reflexivity.
Defined.

(** C2 as the spec has it fails on a file that is not there: it gives no
    job, not one. *)
Lemma C2_absent_file_no_job :
  CreateFromYAML (library_of PNone) None space = Ok []
  /\ ~ (exists job, CreateFromYAML (library_of PNone) None space = Ok [job]).
Proof. split; [reflexivity | intros (job & H); discriminate H]. Qed.

(** C3 on [branch_patterns: [release-]] and the branch [milky_way]. *)
Lemma C3_branch_filter_witness :
  exists accepted,
    branch_accepted (library_of (PDict [("branch_patterns", PList [PStr "release-"])]))
      [("branch_patterns", PList [PStr "release-"])] space = Ok accepted
    /\ (accepted = true <->
        exists p, In p ["release-"]
                  /\ literal_match p (branch space) = Ok true)
    /\ (accepted = false ->
        CreateFromYAML
          (library_of (PDict [("branch_patterns", PList [PStr "release-"])]))
          (Some "branch_patterns: [release-]") space = Ok []).
Proof.
  apply (C3_branch_filter
           (library_of (PDict [("branch_patterns", PList [PStr "release-"])]))
           "branch_patterns: [release-]"
           (PDict [("branch_patterns", PList [PStr "release-"])])
           [("branch_patterns", PList [PStr "release-"])]
           space ["release-"]).
  - reflexivity.
  - reflexivity.
  - constructor; [|constructor].
    exists "branch_patterns". split; reflexivity.
  - reflexivity.
  - intros p _. eexists. reflexivity.
Defined.

(** C4 on the matrix [planet: [earth, mars]], its row for [earth] and the
    key [planet-earth:junit_patterns]. *)
Lemma C4_conditioned_option_witness :
  exists job,
    create_job
      (library_of
         (PDict [("planet-earth:junit_patterns", PList [PStr "x.xml"]);
                 ("planet-mars:boosttest_patterns", PList [])]))
      [("planet-earth:junit_patterns", PList [PStr "x.xml"]);
       ("planet-mars:boosttest_patterns", PList [])]
      space earth = Ok job
    /\ (key_applies earth "planet-earth:junit_patterns" ->
        getattr job (option_of_key "planet-earth:junit_patterns")
        = Some (AVal (PList [PStr "x.xml"])))
    /\ (~ key_applies earth "planet-earth:junit_patterns" ->
        getattr job (option_of_key "planet-earth:junit_patterns")
        = Some (AVal PNone))
    /\ (PyStr.contains PyStr.colon "planet-earth:junit_patterns" = false ->
        key_applies earth "planet-earth:junit_patterns").
Proof.
  apply (C4_conditioned_option
           (library_of
              (PDict [("planet-earth:junit_patterns", PList [PStr "x.xml"]);
                      ("planet-mars:boosttest_patterns", PList [])]))
           [("planet", ["earth"; "mars"])]
           (map (row_of ["planet"]) [["earth"]; ["mars"]])
           earth
           [("planet-earth:junit_patterns", PList [PStr "x.xml"]);
            ("planet-mars:boosttest_patterns", PList [])]
           space
           []
           [("planet-mars:boosttest_patterns", PList [])]
           "planet-earth:junit_patterns" (PList [PStr "x.xml"])).
  - reflexivity.
  - left. reflexivity.
  - discriminate.
  - reflexivity.
  - repeat constructor.
    + exists "planet", "earth". split; [reflexivity | discriminate].
    + exists "planet", "mars". split; [reflexivity | discriminate].
  - repeat constructor. discriminate.
  - discriminate.
Defined.

(** C6 on the matrix [planet: [earth,terra, mars]] and its first row. *)
Lemma C6_format_context_witness :
  exists bindings,
    AsDict (row_of ["planet"] ["earth,terra"]) = Ok bindings
    /\ reread (library_of PNone) [("junit_patterns", PList [PStr "{planet}.xml"])]
         space (row_of ["planet"] ["earth,terra"])
       = (formatted <- str_format (library_of PNone)
                         (PyStr.drop_last
                            (yaml_dump (library_of PNone)
                               (PDict [("junit_patterns", PList [PStr "{planet}.xml"])])))
                         (format_dict_of space bindings) ;;
          yaml_load (library_of PNone) formatted)
    /\ (forall variable pool,
           In (variable, pool) [("planet", ["earth,terra"; "mars"])] ->
           Dict.get (row_dict (row_of ["planet"] ["earth,terra"])) variable <> None)
    /\ (forall token subvalues,
           Dict.get (row_dict (row_of ["planet"] ["earth,terra"])) token
           = Some subvalues ->
           exists pool value,
             In (token, pool) [("planet", ["earth,terra"; "mars"])]
             /\ In value pool
             /\ subvalues = PyStr.split PyStr.comma value
             /\ Dict.get bindings token = Some (first_subvalue value)
             /\ Dict.get (format_dict_of space bindings) token
                = Some (first_subvalue value))
    /\ (forall token,
           Dict.get (row_dict (row_of ["planet"] ["earth,terra"])) token = None ->
           Dict.get bindings token = None
           /\ Dict.get (format_dict_of space bindings) token
              = if String.eqb token "branch" then Some (branch space)
                else if String.eqb token "name" then Some (name space)
                else None).
Proof.
  apply (C6_format_context (library_of PNone)
           [("planet", ["earth,terra"; "mars"])]
           (map (row_of ["planet"]) [["earth,terra"]; ["mars"]])).
  - reflexivity.
  - left. reflexivity.
Defined.

(** C9 on the row for [earth]: [junit_patterns] then
    [planet-earth:junit_patterns]. *)
Lemma C9_last_write_wins_witness :
  exists job1 job2,
    set_options earth ([] ++ [("junit_patterns", PList [PStr "a.xml"])])
      JobsDoneJob_init = Ok job1
    /\ getattr job1 (option_of_key "planet-earth:junit_patterns")
       = Some (AVal (PList [PStr "a.xml"]))
    /\ set_options earth
         ([] ++ ("planet-earth:junit_patterns", PList [PStr "b.xml"]) :: [])
         job1 = Ok job2
    /\ set_options earth
         ([] ++ ("junit_patterns", PList [PStr "a.xml"])
             :: [] ++ ("planet-earth:junit_patterns", PList [PStr "b.xml"]) :: [])
         JobsDoneJob_init = Ok job2
    /\ getattr job2 (option_of_key "planet-earth:junit_patterns")
       = Some (AVal (PList [PStr "b.xml"])).
Proof.
  apply (C9_last_write_wins earth [] [] []
           "junit_patterns" "planet-earth:junit_patterns"
           (PList [PStr "a.xml"]) (PList [PStr "b.xml"]) JobsDoneJob_init).
  - repeat constructor.
    exists "planet", "earth". split; [reflexivity | discriminate].
  - reflexivity.
  - constructor.
  - repeat constructor.
    exists "planet", "earth", ["earth"]. repeat split. left. reflexivity.
  - constructor.
Defined.

(* ================================================================= *)
(** * More properties of the file *)

(** ** Splitting and joining *)

Lemma split_app_sep (sep : ascii) (a b : string) :
  PyStr.split sep (a ++ String sep b)%string
  = PyStr.split sep a ++ PyStr.split sep b.
Proof.
  induction a as [|x a IH]; simpl.
  - rewrite Ascii.eqb_refl. reflexivity.
  - destruct (Ascii.eqb x sep).
    + rewrite IH. reflexivity.
    + rewrite IH. destruct (PyStr.split sep a) as [|w ws] eqn:E;
        [exfalso; exact (split_not_nil _ _ E) | reflexivity].
Qed.

Lemma contains_app (c : ascii) (a b : string) :
  PyStr.contains c (a ++ b)%string = PyStr.contains c a || PyStr.contains c b.
Proof.
  induction a as [|x a IH]; simpl; [reflexivity|].
  rewrite IH, orb_assoc. reflexivity.
Qed.

Lemma join_cons (sep x : string) (rest : list string) :
  rest <> [] ->
  PyStr.join sep (x :: rest) = (x ++ sep ++ PyStr.join sep rest)%string.
Proof. destruct rest; [contradiction | reflexivity]. Qed.

(** Splitting what was joined gives the parts back, when no part holds the
    separator. *)
Lemma split_join (sep : ascii) (parts : list string) :
  parts <> [] ->
  Forall (fun part => PyStr.contains sep part = false) parts ->
  PyStr.split sep (PyStr.join (String sep EmptyString) parts) = parts.
Proof.
  intros Hne Hparts. induction Hparts as [|x rest Hx Hrest IH]; [contradiction|].
  destruct rest as [|y rest].
  - simpl. apply split_without_sep. exact Hx.
  - rewrite join_cons by discriminate.
    change (x ++ String sep EmptyString ++ PyStr.join (String sep EmptyString) (y :: rest))%string
      with (x ++ String sep (PyStr.join (String sep EmptyString) (y :: rest)))%string.
    rewrite split_app_sep, (split_without_sep _ _ Hx), IH by discriminate.
    reflexivity.
Qed.

(** Joining what was split gives the string back. *)
Lemma join_split (sep : ascii) (s : string) :
  PyStr.join (String sep EmptyString) (PyStr.split sep s) = s.
Proof.
  induction s as [|x s IH]; simpl; [reflexivity|].
  destruct (Ascii.eqb x sep) eqn:E.
  - apply Ascii.eqb_eq in E. subst x.
    rewrite join_cons by apply split_not_nil. rewrite IH. reflexivity.
  - destruct (PyStr.split sep s) as [|w ws] eqn:Es;
      [exfalso; exact (split_not_nil _ _ Es)|].
    destruct ws as [|w' ws]; simpl in *; rewrite IH; reflexivity.
Qed.

Lemma split_injective (sep : ascii) (s t : string) :
  PyStr.split sep s = PyStr.split sep t -> s = t.
Proof.
  intros H. rewrite <- (join_split sep s), <- (join_split sep t), H. reflexivity.
Qed.

Lemma split_condition_token (condition : string * string) :
  PyStr.contains PyStr.dash (fst condition) = false ->
  PyStr.contains PyStr.dash (snd condition) = false ->
  PyStr.split PyStr.dash (condition_token condition)
  = [fst condition; snd condition].
Proof.
  intros Hn Hv. unfold condition_token.
  change (fst condition ++ "-" ++ snd condition)%string
    with (fst condition ++ String PyStr.dash (snd condition))%string.
  rewrite split_app_sep, (split_without_sep _ _ Hn), (split_without_sep _ _ Hv).
  reflexivity.
Qed.

Lemma plain_condition_token (condition : string * string) :
  plain (fst condition) -> plain (snd condition) ->
  PyStr.contains PyStr.colon (condition_token condition) = false.
Proof.
  intros [Hn _] [Hv _]. unfold condition_token.
  rewrite !contains_app, Hn, Hv. reflexivity.
Qed.

(** The parts of a key written for conditions and an option are these
    conditions and this option. *)
Lemma split_conditioned_key (conditions : list (string * string))
    (option_name : string) :
  Forall (fun c => plain (fst c) /\ plain (snd c)) conditions ->
  PyStr.contains PyStr.colon option_name = false ->
  conditions_of_key (conditioned_key conditions option_name)
  = map condition_token conditions
  /\ option_of_key (conditioned_key conditions option_name) = option_name.
Proof.
  intros Hc Ho. unfold conditions_of_key, option_of_key, conditioned_key.
  change ":" with (String PyStr.colon EmptyString).
  rewrite split_join.
  - rewrite removelast_last, last_last. split; reflexivity.
  - destruct (map condition_token conditions); discriminate.
  - apply Forall_app. split; [|repeat constructor; exact Ho].
    apply Forall_map. eapply Forall_impl; [|exact Hc].
    intros c [Hn Hv]. apply plain_condition_token; assumption.
Qed.

(** ** Conditions that cannot be read, keys as they are written *)

Lemma mapM_app_raise {A B} (f : A -> result B) (good rest : list A)
    (a : A) (bs : list B) (e : exn) :
  mapM f good = Ok bs -> f a = Raise e ->
  mapM f (good ++ a :: rest) = Raise e.
Proof.
  revert bs. induction good as [|g good IH]; intros bs Hgood Ha; simpl.
  - rewrite Ha. reflexivity.
  - simpl in Hgood. destruct (f g) as [b|e']; [|discriminate]. cbn [bind] in *.
    destruct (mapM f good) as [bs'|e']; [|discriminate].
    rewrite (IH bs' eq_refl Ha). reflexivity.
Qed.

Lemma In_get_NoDup {V} (d : Dict.t V) k v :
  NoDup (Dict.keys d) -> In (k, v) d -> Dict.get d k = Some v.
Proof.
  induction d as [|[k0 v0] d IH]; simpl; intros Hd Hin; [destruct Hin|].
  inversion Hd as [|? ? Hk0 Hd']; subst.
  destruct Hin as [[= -> ->]|Hin].
  - rewrite String.eqb_refl. reflexivity.
  - destruct (String.eqb k0 k) eqn:E; [|apply IH; assumption].
    apply String.eqb_eq in E. subst k0. exfalso. apply Hk0.
    unfold Dict.keys. apply in_map_iff. exists (k, v). auto.
Qed.

(** X6: [Match] reads every condition before it answers.  When the
    conditions before one can be read, a condition that does not split at
    [-] into exactly a name and a value makes it raise [ValueError], and one
    whose name is no variable of the row makes it raise [KeyError] with that
    name, whether or not the conditions before it hold. *)
Theorem X6_Match_raises :
  forall (row : MatrixRow) (good rest : list string) (condition : string),
    Forall (condition_of_row row) good ->
    match PyStr.split PyStr.dash condition with
    | [variable_name; _] =>
        Dict.get (row_dict row) variable_name = None ->
        Match row (good ++ condition :: rest) = Raise (KeyError variable_name)
    | _ => Match row (good ++ condition :: rest) = Raise ValueError
    end.
Proof.
  intros row good rest condition Hgood.
  assert (Hok : mapM (_Match (row_dict row)) good
                = Ok (map (condition_holdsb row) good)).
  { apply mapM_ok. intros c Hc. apply _Match_of_row.
    rewrite Forall_forall in Hgood. apply Hgood, Hc. }
  assert (Hraise : forall e, _Match (row_dict row) condition = Raise e ->
                             Match row (good ++ condition :: rest) = Raise e).
  { intros e He. unfold Match.
    rewrite (mapM_app_raise _ _ _ _ _ _ Hok He). reflexivity. }
  unfold _Match in Hraise.
  destruct (PyStr.split PyStr.dash condition) as [|n [|v [|x more]]];
    try (apply Hraise; reflexivity).
  intros Hget. apply Hraise. unfold Dict.getitem. rewrite Hget. reflexivity.
Qed.

Lemma X6_Match_raises_witness :
  Match earth (["planet-mars"] ++ "moon-europa" :: ["planet"])
  = Raise (KeyError "moon").
Proof.
  refine (X6_Match_raises earth ["planet-mars"] ["planet"] "moon-europa" _ _).
  - repeat constructor. exists "planet", "mars".
    split; [reflexivity | discriminate].
  - reflexivity.
Defined.

(** X7: a key written [name1-value1:...:namen-valuen:option], with names,
    values and option free of [:] and [-] and the names variables of the
    row, is read back as it was written: the loop sets [option] to the value
    of the key exactly when every [valuei] is among the values the row
    retains for [namei], and leaves the job as it is otherwise. *)
Theorem X7_conditioned_key_read_back :
  forall (row : MatrixRow) (job : JobsDoneJob)
         (conditions : list (string * string)) (option_name : string)
         (value : pyval),
    Forall (fun c => plain (fst c) /\ plain (snd c)
                     /\ Dict.get (row_dict row) (fst c) <> None) conditions ->
    PyStr.contains PyStr.colon option_name = false ->
    set_option row job (conditioned_key conditions option_name, value)
    = Ok (if forallb
               (fun c => match Dict.get (row_dict row) (fst c) with
                         | Some variable_values => PyStr.mem (snd c) variable_values
                         | None => false
                         end) conditions
          then setattr job option_name (AVal value)
          else job).
Proof.
  intros row job conditions option_name value Hc Ho.
  destruct (split_conditioned_key conditions option_name) as [Econds Eopt].
  { eapply Forall_impl; [|exact Hc]. intros c (Hn & Hv & _). split; assumption. }
  { exact Ho. }
  rewrite set_option_of_row.
  - unfold key_appliesb. rewrite Econds, Eopt.
    replace (forallb (condition_holdsb row) (map condition_token conditions))
      with (forallb
              (fun c => match Dict.get (row_dict row) (fst c) with
                        | Some variable_values => PyStr.mem (snd c) variable_values
                        | None => false
                        end) conditions); [reflexivity|].
    clear Econds Eopt. induction Hc as [|c cs (Hn & Hv & _) _ IH]; [reflexivity|].
    simpl. rewrite IH. f_equal. unfold condition_holdsb.
    rewrite split_condition_token; [reflexivity | apply Hn | apply Hv].
  - unfold key_of_row. rewrite Econds. apply Forall_map.
    eapply Forall_impl; [|exact Hc]. intros c (Hn & Hv & Hget).
    exists (fst c), (snd c). split; [|exact Hget].
    apply split_condition_token; [apply Hn | apply Hv].
Qed.

Lemma X7_conditioned_key_read_back_witness :
  set_option (row_of ["planet"; "moon"] ["earth"; "europa,io"]) JobsDoneJob_init
    (conditioned_key [("planet", "earth"); ("moon", "io")] "junit_patterns",
     PList [PStr "x.xml"])
  = Ok (if forallb
             (fun c =>
                match Dict.get
                        (row_dict (row_of ["planet"; "moon"] ["earth"; "europa,io"]))
                        (fst c) with
                | Some variable_values => PyStr.mem (snd c) variable_values
                | None => false
                end) [("planet", "earth"); ("moon", "io")]
        then setattr JobsDoneJob_init "junit_patterns" (AVal (PList [PStr "x.xml"]))
        else JobsDoneJob_init).
Proof.
  apply (X7_conditioned_key_read_back
           (row_of ["planet"; "moon"] ["earth"; "europa,io"]) JobsDoneJob_init
           [("planet", "earth"); ("moon", "io")] "junit_patterns"
           (PList [PStr "x.xml"])).
  - repeat constructor; discriminate.
  - reflexivity.
Defined.

Lemma option_of_conditioned (prefix option_name : string) :
  PyStr.contains PyStr.colon option_name = false ->
  PyStr.split PyStr.colon (prefix ++ ":" ++ option_name)%string
  = PyStr.split PyStr.colon prefix ++ [option_name].
Proof.
  intros Ho.
  change (prefix ++ ":" ++ option_name)%string
    with (prefix ++ String PyStr.colon option_name)%string.
  rewrite split_app_sep, (split_without_sep _ _ Ho). reflexivity.
Qed.

(** X8: the check of names and types looks at the option a key names and
    at nothing before it: [prefix:option] is checked as [option] is, whatever
    [prefix] is.  A prefix that is not a [name-value] token is accepted by
    the check and makes the loop over the items of a row raise
    [ValueError]. *)
Theorem X8_check_ignores_conditions :
  forall (prefix option_name : string) (value : pyval) (rest : Dict.t pyval),
    PyStr.contains PyStr.colon option_name = false ->
    check_options ((prefix ++ ":" ++ option_name, value) :: rest)%string
    = check_options ((option_name, value) :: rest)
    /\ (forall (row : MatrixRow) (job : JobsDoneJob),
           PyStr.contains PyStr.colon prefix = false ->
           (forall n v, PyStr.split PyStr.dash prefix <> [n; v]) ->
           set_option row job ((prefix ++ ":" ++ option_name)%string, value)
           = Raise ValueError).
Proof.
  intros prefix option_name value rest Ho. split.
  - rewrite !check_options_cons. unfold option_of_key.
    rewrite (option_of_conditioned _ _ Ho), last_last.
    rewrite (split_without_sep _ _ Ho). reflexivity.
  - intros row job Hp Hbad. unfold set_option.
    assert (Hc : PyStr.contains PyStr.colon (prefix ++ ":" ++ option_name)%string
                 = true).
    { rewrite !contains_app. simpl. apply orb_true_r. }
    rewrite Hc, (option_of_conditioned _ _ Ho), removelast_last.
    rewrite (index_last_last _ EmptyString)
      by (destruct (PyStr.split PyStr.colon prefix); discriminate).
    cbn [bind]. rewrite (split_without_sep _ _ Hp).
    unfold Match. cbn [mapM]. unfold _Match.
    destruct (PyStr.split PyStr.dash prefix) as [|n [|v [|x more]]] eqn:E;
      try reflexivity.
    exfalso. exact (Hbad n v eq_refl).
Qed.

Lemma X8_check_ignores_conditions_witness :
  check_options [(("on earth" ++ ":" ++ "junit_patterns")%string, PList [])]
  = check_options [("junit_patterns", PList [])]
  /\ (forall (row : MatrixRow) (job : JobsDoneJob),
         PyStr.contains PyStr.colon "on earth" = false ->
         (forall n v, PyStr.split PyStr.dash "on earth" <> [n; v]) ->
         set_option row job (("on earth" ++ ":" ++ "junit_patterns")%string, PList [])
         = Raise ValueError).
Proof.
  apply (X8_check_ignores_conditions "on earth" "junit_patterns" (PList []) []).
  reflexivity.
Defined.

(** X16: the tokens [__str__] prints for a row are the conditions that hold
    in it.  For a row whose names and values have no [-] in them, a
    condition makes [Match] return [True] if and only if it is one of the
    [name-value] tokens of the text of the row. *)
Theorem X16_str_tokens_are_the_conditions_that_hold :
  forall (row : MatrixRow) (condition : string),
    NoDup (Dict.keys (row_dict row)) ->
    Forall (fun item =>
              PyStr.contains PyStr.dash (fst item) = false
              /\ Forall (fun v => PyStr.contains PyStr.dash v = false) (snd item))
      (row_dict row) ->
    (Match row [condition] = Ok true
     <-> In condition (MatrixRow_str_result row)).
Proof.
  intros row condition Hnodup Hplain.
  unfold Match, MatrixRow_str_result. cbn [mapM]. rewrite in_flat_map. split.
  - intros H. unfold _Match in H.
    pose proof (join_split PyStr.dash condition) as Hjoin.
    destruct (PyStr.split PyStr.dash condition) as [|n [|v [|x more]]];
      try discriminate.
    unfold Dict.getitem in H.
    destruct (Dict.get (row_dict row) n) as [vs|] eqn:Eg; [|discriminate].
    cbn [bind mapM forallb] in H. injection H as H.
    rewrite andb_true_r in H. apply mem_In in H.
    exists (n, vs). split; [apply get_In; exact Eg|].
    apply in_map_iff. exists v. split; [exact Hjoin | exact H].
  - intros ([n vs] & Hitem & Htoken). cbn [fst snd] in Htoken.
    apply in_map_iff in Htoken as (v & <- & Hv).
    rewrite Forall_forall in Hplain. destruct (Hplain _ Hitem) as [Hn Hvs].
    cbn [fst snd] in Hn, Hvs. rewrite Forall_forall in Hvs.
    unfold _Match.
    pose proof (split_condition_token (n, v) Hn (Hvs v Hv)) as Hs.
    unfold condition_token in Hs. cbn [fst snd] in Hs. rewrite Hs.
    unfold Dict.getitem. rewrite (In_get_NoDup _ _ _ Hnodup Hitem).
    cbn [bind mapM forallb]. rewrite (proj2 (mem_In v vs) Hv). reflexivity.
Qed.

Lemma X16_str_tokens_are_the_conditions_that_hold_witness :
  Match (row_of ["planet"] ["earth,terra"]) ["planet-terra"] = Ok true
  <-> In "planet-terra" (MatrixRow_str_result (row_of ["planet"] ["earth,terra"])).
Proof.
  apply (X16_str_tokens_are_the_conditions_that_hold
           (row_of ["planet"] ["earth,terra"]) "planet-terra").
  - repeat constructor. intros [].
  - repeat constructor.
Defined.

Example text_of_a_row :
  MatrixRow_str (row_of ["planet"; "moon"] ["earth,terra"; "europa"])
  = "<MatrixRow planet-earth planet-terra moon-europa>".
Proof. reflexivity. Qed.

(** ** The rows of a matrix, as a whole *)

Lemma lexicographic_product_In {A} (pools : list (list A)) (ys : list A) :
  Forall2 (@In A) ys pools -> In ys (lexicographic_product pools).
Proof.
  induction 1 as [|y pool ys pools Hy _ IH]; simpl.
  - left. reflexivity.
  - apply in_flat_map. exists y. split; [exact Hy|].
    apply in_map. exact IH.
Qed.

Lemma lexicographic_product_empty_pool {A} (pools : list (list A)) :
  In [] pools -> lexicographic_product pools = [].
Proof.
  induction pools as [|pool pools IH]; simpl; [intros []|].
  intros [->|Hin]; [reflexivity|].
  rewrite (IH Hin). induction pool as [|y pool IHp]; simpl; [reflexivity|].
  exact IHp.
Qed.

Lemma combinations_zero {A} (pools : list (list A)) :
  combinations pools = 0 -> In [] pools.
Proof.
  induction pools as [|pool pools IH]; simpl; [discriminate|].
  intros H. apply Nat.eq_mul_0 in H as [H|H].
  - left. destruct pool; [reflexivity | discriminate].
  - right. apply IH. exact H.
Qed.

(** X1: the rows of a matrix are the choices of one value for each
    variable, no more and no less: a row is returned by [CreateMatrixRows]
    if and only if it is the row of some list of values that takes its i-th
    value in the list of the i-th variable. *)
Theorem X1_rows_are_the_choices :
  forall (matrix : Dict.t (list string)) (row : MatrixRow),
    (exists rows, CreateMatrixRows (matrix_of matrix) = Ok rows /\ In row rows)
    <-> (exists values,
            Forall2 (@In string) values (Dict.values matrix)
            /\ row = row_of (Dict.keys matrix) values).
Proof.
  intros matrix row. rewrite CreateMatrixRows_matrix_of. split.
  - intros (rows & [= <-] & Hin).
    apply in_map_iff in Hin as (values & <- & Hvalues).
    exists values. split; [|reflexivity].
    apply In_lexicographic_product. exact Hvalues.
  - intros (values & Hvalues & ->). eexists. split; [reflexivity|].
    apply in_map, lexicographic_product_In. exact Hvalues.
Qed.

(** X2: a variable with no value leaves no row.  When every value of the
    matrix can be iterated and one of them is empty, [CreateMatrixRows]
    returns the empty list and does not raise, whatever the other values
    hold; and on a matrix of lists of strings it returns the empty list only
    if some variable has the empty list. *)
Theorem X2_empty_list_no_rows :
  (forall (matrix_dict : Dict.t pyval) (pools : list (list pyval)),
      mapM iter (Dict.values matrix_dict) = Ok pools ->
      In [] pools ->
      CreateMatrixRows matrix_dict = Ok [])
  /\ (forall matrix : Dict.t (list string),
         CreateMatrixRows (matrix_of matrix) = Ok []
         <-> exists variable, In (variable, []) matrix).
Proof.
  split.
  - intros matrix_dict pools Hpools Hin. unfold CreateMatrixRows.
    rewrite Hpools. cbn [bind].
    rewrite product_lexicographic, (lexicographic_product_empty_pool _ Hin).
    reflexivity.
  - intros matrix. rewrite CreateMatrixRows_matrix_of. split.
    + intros [= H].
      assert (Hz : combinations (Dict.values matrix) = 0).
      { rewrite <- length_lexicographic_product.
        apply (f_equal (@length _)) in H. rewrite length_map in H. exact H. }
      apply combinations_zero in Hz. unfold Dict.values in Hz.
      apply in_map_iff in Hz as ([variable pool] & Hp & Hin).
      simpl in Hp. subst pool. exists variable. exact Hin.
    + intros (variable & Hin).
      rewrite lexicographic_product_empty_pool; [reflexivity|].
      unfold Dict.values. apply in_map_iff. exists (variable, []). auto.
Qed.

Example empty_list_hides_a_bad_value :
  CreateMatrixRows [("planet", PList []); ("moon", PList [PList [PStr "europa"]])]
  = Ok []
  /\ CreateMatrixRows [("moon", PList [PList [PStr "europa"]])]
     = Raise AttributeError.
Proof. split; reflexivity. Qed.

(** X5: a variable given a string instead of a list passes the check of
    names and types, which only sees that [matrix] is a dict, and gives one
    row for each character of the string. *)
Theorem X5_string_value_one_row_per_character :
  forall (variable value : string),
    check_options [("matrix", PDict [(variable, PStr value)])] = Ok tt
    /\ CreateMatrixRows [(variable, PStr value)]
       = Ok (map (fun c => row_of [variable] [c]) (PyStr.chars value)).
Proof.
  intros variable value. split; [reflexivity|].
  unfold CreateMatrixRows. cbn [Dict.values Dict.keys map fst snd mapM iter bind].
  rewrite product_lexicographic.
  assert (Hone : forall pool : list pyval,
             lexicographic_product [pool] = map (fun y => [y]) pool).
  { intros pool. cbn [lexicographic_product].
    induction pool as [|y pool IH]; simpl; [reflexivity|].
    simpl in IH. rewrite IH. reflexivity. }
  rewrite Hone, !map_map, mapM_map. apply mapM_ok.
  intros c _. apply (MatrixRow_init_strings [variable] [c]).
Qed.

(** ** Rows of a matrix with distinct names *)

Lemma set_fresh {V} (d : Dict.t V) k v :
  ~ In k (Dict.keys d) -> Dict.set d k v = d ++ [(k, v)].
Proof.
  induction d as [|[k0 v0] d IH]; simpl; intros Hk; [reflexivity|].
  destruct (String.eqb k0 k) eqn:E.
  - apply String.eqb_eq in E. tauto.
  - rewrite IH by tauto. reflexivity.
Qed.

Lemma update_distinct {V} (d other : Dict.t V) :
  NoDup (Dict.keys (d ++ other)) -> Dict.update d other = d ++ other.
Proof.
  unfold Dict.update. revert d.
  induction other as [|[k v] other IH]; intros d Hd; simpl.
  - rewrite app_nil_r. reflexivity.
  - assert (Hk : ~ In k (Dict.keys d)).
    { unfold Dict.keys in *. rewrite map_app in Hd. simpl in Hd.
      apply NoDup_remove_2 in Hd. intros H. apply Hd, in_or_app. left. exact H. }
    rewrite (set_fresh _ _ _ Hk), IH; rewrite <- app_assoc; [reflexivity|].
    exact Hd.
Qed.

(** [dict(pairs)] keeps pairs with distinct keys as they are. *)
Lemma of_pairs_distinct {V} (pairs : list (string * V)) :
  NoDup (Dict.keys pairs) -> Dict.of_pairs pairs = pairs.
Proof. intros H. unfold Dict.of_pairs. rewrite update_distinct; auto. Qed.

Lemma combine_map_values {V W} (f : V -> W) (names : list string) (l : list V) :
  map (fun ij => (fst ij, f (snd ij))) (combine names l) = combine names (map f l).
Proof.
  revert l. induction names as [|n names IH]; intros [|v l]; simpl;
    try reflexivity.
  rewrite IH. reflexivity.
Qed.

Lemma values_combine {V} (names : list string) (l : list V) :
  length names = length l -> Dict.values (combine names l) = l.
Proof.
  revert l. induction names as [|n names IH]; intros [|v l] H;
    simpl in *; try discriminate; [reflexivity|].
  f_equal. apply IH. lia.
Qed.

Lemma hd_split (value : string) :
  hd EmptyString (PyStr.split PyStr.comma value) = first_subvalue value.
Proof. destruct (first_subvalue_split value) as (rest & ->). reflexivity. Qed.

(** The dict of a row made for distinct names and as many values. *)
Lemma row_dict_distinct (names values : list string) :
  NoDup names -> length names = length values ->
  row_dict (row_of names values)
  = combine names (map (PyStr.split PyStr.comma) values).
Proof.
  intros Hn Hl. cbn [row_of row_dict]. apply of_pairs_distinct.
  rewrite keys_combine; [exact Hn | rewrite length_map; exact Hl].
Qed.

Lemma AsDict_distinct (names values : list string) :
  NoDup names -> length names = length values ->
  AsDict (row_of names values) = Ok (combine names (map first_subvalue values)).
Proof.
  intros Hn Hl. unfold AsDict. rewrite (row_dict_distinct _ _ Hn Hl).
  rewrite (mapM_ok _ (fun ij => (fst ij, hd EmptyString (snd ij)))).
  - cbn [bind]. rewrite combine_map_values, map_map.
    rewrite (map_ext _ first_subvalue) by apply hd_split.
    rewrite of_pairs_distinct; [reflexivity|].
    rewrite keys_combine; [exact Hn | rewrite length_map; exact Hl].
  - intros [n subvalues] Hin. apply in_combine_r in Hin.
    apply in_map_iff in Hin as (v & <- & _). cbn [fst snd].
    destruct (PyStr.split PyStr.comma v) eqn:E;
      [exfalso; exact (split_not_nil _ _ E) | reflexivity].
Qed.

Lemma length_choice (matrix : Dict.t (list string)) (values : list string) :
  Forall2 (@In string) values (Dict.values matrix) ->
  length (Dict.keys matrix) = length values.
Proof.
  intros H. apply Forall2_length in H.
  unfold Dict.keys, Dict.values in *. rewrite length_map in *. lia.
Qed.

(** X3: for a matrix with distinct names, each row pairs the names, in
    their order, with what was chosen for them: its dict pairs each name
    with the comma-separated sub-values of the value chosen, and [AsDict],
    the [matrix_row] of the job, pairs it with the first of them. *)
Theorem X3_row_bindings :
  forall (matrix : Dict.t (list string)) (rows : list MatrixRow) (row : MatrixRow),
    NoDup (Dict.keys matrix) ->
    CreateMatrixRows (matrix_of matrix) = Ok rows ->
    In row rows ->
    exists values,
      Forall2 (@In string) values (Dict.values matrix)
      /\ row_dict row
         = combine (Dict.keys matrix) (map (PyStr.split PyStr.comma) values)
      /\ AsDict row
         = Ok (combine (Dict.keys matrix) (map first_subvalue values)).
Proof.
  intros matrix rows row Hnames Hrows Hrow.
  destruct (row_of_rows _ _ _ Hrows Hrow) as (values & Hvalues & ->).
  apply In_lexicographic_product in Hvalues.
  pose proof (length_choice _ _ Hvalues) as Hl.
  exists values. split; [exact Hvalues|]. split.
  - apply row_dict_distinct; assumption.
  - apply AsDict_distinct; assumption.
Qed.

Lemma X3_row_bindings_witness :
  exists values,
    Forall2 (@In string) values
      (Dict.values [("planet", ["earth,terra"; "mars"]); ("moon", ["europa"])])
    /\ row_dict (row_of ["planet"; "moon"] ["earth,terra"; "europa"])
       = combine (Dict.keys [("planet", ["earth,terra"; "mars"]); ("moon", ["europa"])])
           (map (PyStr.split PyStr.comma) values)
    /\ AsDict (row_of ["planet"; "moon"] ["earth,terra"; "europa"])
       = Ok (combine
               (Dict.keys [("planet", ["earth,terra"; "mars"]); ("moon", ["europa"])])
               (map first_subvalue values)).
Proof.
  apply (X3_row_bindings
           [("planet", ["earth,terra"; "mars"]); ("moon", ["europa"])]
           (map (row_of ["planet"; "moon"])
              [["earth,terra"; "europa"]; ["mars"; "europa"]])).
  - repeat constructor; simpl; intuition discriminate.
  - reflexivity.
  - left. reflexivity.
Defined.

Lemma NoDup_lexicographic_product {A} (pools : list (list A)) :
  Forall (@NoDup A) pools -> NoDup (lexicographic_product pools).
Proof.
  induction 1 as [|pool pools Hpool _ IH]; simpl.
  - repeat constructor. intros [].
  - induction Hpool as [|y pool Hy _ IHp]; simpl; [constructor|].
    apply NoDup_app.
    + apply NoDup_map_NoDup_ForallPairs; [|exact IH].
      intros ys ys' _ _ [= E]. exact E.
    + exact IHp.
    + intros ys Hys Hys'. apply in_map_iff in Hys as (t & <- & _).
      apply in_flat_map in Hys' as (y' & Hy' & Hin).
      apply in_map_iff in Hin as (t' & [= -> _] & _). contradiction.
Qed.

(** X4: when the names of the matrix are distinct and no variable lists a
    value twice, no two rows that [CreateMatrixRows] returns are equal. *)
Theorem X4_rows_distinct :
  forall (matrix : Dict.t (list string)) (rows : list MatrixRow),
    NoDup (Dict.keys matrix) ->
    Forall (@NoDup string) (Dict.values matrix) ->
    CreateMatrixRows (matrix_of matrix) = Ok rows ->
    NoDup rows.
Proof.
  intros matrix rows Hnames Hpools Hrows.
  rewrite CreateMatrixRows_matrix_of in Hrows. injection Hrows as <-.
  apply NoDup_map_NoDup_ForallPairs;
    [|apply NoDup_lexicographic_product; exact Hpools].
  intros values values' Hv Hv' E.
  apply In_lexicographic_product, length_choice in Hv, Hv'.
  apply (f_equal row_dict) in E.
  rewrite !row_dict_distinct in E by assumption.
  apply (f_equal Dict.values) in E.
  rewrite !values_combine in E by (rewrite length_map; assumption).
  clear Hv Hv'. revert values' E.
  induction values as [|v values IH]; intros [|v' values'] E;
    simpl in E; try discriminate; [reflexivity|].
  injection E as Ev E. apply split_injective in Ev. subst v'.
  f_equal. apply IH. exact E.
Qed.

Lemma X4_rows_distinct_witness :
  NoDup (map (row_of ["planet"; "moon"])
           [["earth"; "europa"]; ["earth"; "io"]; ["mars"; "europa"]; ["mars"; "io"]]).
Proof.
  apply (X4_rows_distinct [("planet", ["earth"; "mars"]); ("moon", ["europa"; "io"])]).
  - repeat constructor; simpl; intuition discriminate.
  - repeat constructor; simpl; intuition discriminate.
  - reflexivity.
Defined.

(** ** What the check of names and types gives *)

(** X9: whether the check accepts a file does not depend on the order in
    which the dict yields its keys; only the key the error is about does. *)
Theorem X9_check_any_order :
  forall items items' : Dict.t pyval,
    Permutation items items' ->
    (check_options items = Ok tt <-> check_options items' = Ok tt).
Proof.
  intros items items' Hperm. rewrite !check_options_ok_iff. split; intros H.
  - exact (Permutation_Forall Hperm H).
  - exact (Permutation_Forall (Permutation_sym Hperm) H).
Qed.

Lemma X9_check_any_order_witness :
  check_options [("matrix", PDict []); ("bogus", PStr "x"); ("parameters", PStr "x")]
  = Ok tt
  <-> check_options [("parameters", PStr "x"); ("matrix", PDict []); ("bogus", PStr "x")]
      = Ok tt.
Proof.
  apply X9_check_any_order.
  apply Permutation_sym, (Permutation_cons_app [_; _] []). reflexivity.
Defined.

Example error_depends_on_order :
  check_options [("matrix", PDict []); ("bogus", PStr "x"); ("parameters", PStr "x")]
  = Raise (UnknownJobsDoneFileOption "bogus")
  /\ check_options [("parameters", PStr "x"); ("matrix", PDict []); ("bogus", PStr "x")]
     = Raise (JobsDoneFileTypeError "parameters" TStr TList).
Proof. split; reflexivity. Qed.

Lemma checked_value (jd_data : Dict.t pyval) (key : string) (value : pyval) :
  check_options jd_data = Ok tt ->
  Dict.get jd_data key = Some value ->
  Dict.get PARSEABLE_OPTIONS (option_of_key key) = Some (type_of value).
Proof.
  intros Hcheck Hget. apply check_options_ok_iff in Hcheck.
  rewrite Forall_forall in Hcheck.
  apply option_ok_iff, Hcheck, get_In, Hget.
Qed.

(** X10: a file that passes the check has the shapes the rest of
    [CreateFromYAML] relies on: what it takes for [matrix] is a dict and
    what it takes for [branch_patterns] is a list, given or by default, so
    that neither the call of [keys] on the one nor the loop over the other
    can fail. *)
Theorem X10_checked_shapes :
  forall jd_data : Dict.t pyval,
    check_options jd_data = Ok tt ->
    (exists matrix,
        Dict.get_default jd_data "matrix" (PDict []) = PDict matrix
        /\ iteritems (Dict.get_default jd_data "matrix" (PDict [])) = Ok matrix)
    /\ (exists patterns,
           Dict.get_default jd_data "branch_patterns" (PList [PStr ".*"])
           = PList patterns
           /\ iter (Dict.get_default jd_data "branch_patterns" (PList [PStr ".*"]))
              = Ok patterns).
Proof.
  intros jd_data Hcheck. unfold Dict.get_default. split.
  - destruct (Dict.get jd_data "matrix") as [value|] eqn:Eg.
    + pose proof (checked_value _ _ _ Hcheck Eg) as Ht.
      destruct value; try discriminate Ht. eexists. split; reflexivity.
    + eexists. split; reflexivity.
  - destruct (Dict.get jd_data "branch_patterns") as [value|] eqn:Eg.
    + pose proof (checked_value _ _ _ Hcheck Eg) as Ht.
      destruct value; try discriminate Ht. eexists. split; reflexivity.
    + eexists. split; reflexivity.
Qed.

Lemma X10_checked_shapes_witness :
  (exists matrix,
      Dict.get_default [("matrix", PDict [("planet", PStr "earth")])]
        "matrix" (PDict []) = PDict matrix
      /\ iteritems
           (Dict.get_default [("matrix", PDict [("planet", PStr "earth")])]
              "matrix" (PDict [])) = Ok matrix)
  /\ (exists patterns,
         Dict.get_default [("matrix", PDict [("planet", PStr "earth")])]
           "branch_patterns" (PList [PStr ".*"]) = PList patterns
         /\ iter
              (Dict.get_default [("matrix", PDict [("planet", PStr "earth")])]
                 "branch_patterns" (PList [PStr ".*"])) = Ok patterns).
Proof.
  apply (X10_checked_shapes [("matrix", PDict [("planet", PStr "earth")])]).
  reflexivity.
Defined.

(** ** Reading a file, as a whole *)

Lemma mapM_Forall2 {A B} (f : A -> result B) (l : list A) (l' : list B) :
  mapM f l = Ok l' <-> Forall2 (fun a b => f a = Ok b) l l'.
Proof.
  revert l'. induction l as [|a l IH]; intros l'; simpl.
  - split; [intros [= <-]; constructor | intros H; inversion H; reflexivity].
  - split.
    + destruct (f a) as [b|e] eqn:Ea; [|discriminate]. cbn [bind].
      destruct (mapM f l) as [bs|e]; [|discriminate]. cbn [bind].
      intros [= <-]. constructor; [exact Ea | apply IH; reflexivity].
    + intros H. inversion H as [|? b ? bs Hb Hbs]; subst.
      rewrite Hb. cbn [bind]. rewrite (proj2 (IH bs) Hbs). reflexivity.
Qed.

Section ReadingAsAWhole.

Variable lib : Library.

(** X11: the branch filter asks [re] about every pattern before it
    answers.  When the patterns before one are strings that [re] accepts, a
    pattern that is no string, or that [re] rejects, makes [CreateFromYAML]
    raise that error, also when a pattern before it or after it matches the
    branch. *)
Theorem X11_branch_filter_raises :
  forall (yaml_contents : string) (loaded : pyval) (jd_data : Dict.t pyval)
         (repository : Repository)
         (good : list string) (bad : pyval) (rest : list pyval) (e : exn),
    yaml_load_jobs_done lib yaml_contents = Ok loaded ->
    iteritems (if truthy loaded then loaded else PDict []) = Ok jd_data ->
    check_options jd_data = Ok tt ->
    Dict.get jd_data "branch_patterns" = Some (PList (map PStr good ++ bad :: rest)) ->
    (forall p, In p good -> exists b, re_match lib p (branch repository) = Ok b) ->
    match_pattern lib (branch repository) bad = Raise e ->
    branch_accepted lib jd_data repository = Raise e
    /\ CreateFromYAML lib (Some yaml_contents) repository = Raise e.
Proof.
  intros yaml_contents loaded jd_data repository good bad rest e
         Hload Hitems Hcheck Hget Hgood Hbad.
  assert (Hfilter : branch_accepted lib jd_data repository = Raise e).
  { unfold branch_accepted, Dict.get_default. rewrite Hget. cbn [iter bind].
    destruct (matches_of_patterns lib _ _ Hgood) as (matches & Hrun & _).
    rewrite (mapM_app_raise _ _ _ _ matches e); [reflexivity | | exact Hbad].
    rewrite mapM_map. exact Hrun. }
  split; [exact Hfilter|].
  unfold CreateFromYAML. rewrite Hload. cbn [bind]. rewrite Hitems. cbn [bind].
  rewrite Hcheck. cbn [bind]. rewrite Hfilter. reflexivity.
Qed.

(** X12: a file whose top level is neither empty nor a mapping, a list of
    options or a bare word, is not reported as a bad file: [CreateFromYAML]
    raises [AttributeError] on the call of [iteritems]. *)
Theorem X12_top_level_not_a_mapping :
  forall (yaml_contents : string) (loaded : pyval) (repository : Repository),
    yaml_load_jobs_done lib yaml_contents = Ok loaded ->
    truthy loaded = true ->
    type_of loaded <> TDict ->
    CreateFromYAML lib (Some yaml_contents) repository = Raise AttributeError.
Proof.
  intros yaml_contents loaded repository Hload Htrue Htype.
  unfold CreateFromYAML. rewrite Hload. cbn [bind]. rewrite Htrue.
  destruct loaded; try reflexivity. contradiction Htype. reflexivity.
Qed.

(** X13: for a file that passes the check, with a matrix of lists of
    strings, a call of [CreateFromYAML] that returns gives either no job,
    when the branch is not accepted, or exactly one job for each row of the
    matrix, in the order of the rows, each the job made for its row; so as
    many jobs as the sizes of the lists multiply to.  If making the job of
    one row raises, the call raises and no list is returned. *)
Theorem X13_one_job_for_each_row :
  forall (yaml_contents : string) (loaded : pyval) (jd_data : Dict.t pyval)
         (repository : Repository) (matrix : Dict.t (list string)),
    yaml_load_jobs_done lib yaml_contents = Ok loaded ->
    iteritems (if truthy loaded then loaded else PDict []) = Ok jd_data ->
    check_options jd_data = Ok tt ->
    Dict.get_default jd_data "matrix" (PDict []) = PDict (matrix_of matrix) ->
    let rows := map (row_of (Dict.keys matrix))
                  (lexicographic_product (Dict.values matrix)) in
    (forall jobs,
        CreateFromYAML lib (Some yaml_contents) repository = Ok jobs ->
        (branch_accepted lib jd_data repository = Ok false /\ jobs = [])
        \/ (branch_accepted lib jd_data repository = Ok true
            /\ length jobs = combinations (Dict.values matrix)
            /\ Forall2 (fun row job =>
                          create_job lib jd_data repository row = Ok job)
                 rows jobs))
    /\ (forall row e,
           branch_accepted lib jd_data repository = Ok true ->
           In row rows ->
           create_job lib jd_data repository row = Raise e ->
           exists e', CreateFromYAML lib (Some yaml_contents) repository = Raise e').
Proof.
  intros yaml_contents loaded jd_data repository matrix
         Hload Hitems Hcheck Hmatrix rows.
  assert (Hrun : CreateFromYAML lib (Some yaml_contents) repository
                 = (accepted <- branch_accepted lib jd_data repository ;;
                    if negb accepted then Ok []
                    else mapM (create_job lib jd_data repository) rows)).
  { unfold CreateFromYAML. rewrite Hload. cbn [bind]. rewrite Hitems. cbn [bind].
    rewrite Hcheck. cbn [bind]. rewrite Hmatrix. cbn [iteritems bind].
    rewrite CreateMatrixRows_matrix_of. reflexivity. }
  rewrite Hrun. split.
  - intros jobs Hjobs.
    destruct (branch_accepted lib jd_data repository) as [[|]|e];
      [right | left | discriminate]; cbn [bind negb] in Hjobs.
    + apply mapM_Forall2 in Hjobs. split; [reflexivity|]. split; [|exact Hjobs].
      apply Forall2_length in Hjobs. rewrite <- Hjobs. unfold rows.
      rewrite length_map. apply length_lexicographic_product.
    + injection Hjobs as <-. split; reflexivity.
  - intros row e Haccepted Hrow Hraise. rewrite Haccepted. cbn [bind negb].
    destruct (mapM (create_job lib jd_data repository) rows) as [jobs|e'] eqn:Em;
      [|exists e'; reflexivity].
    apply mapM_Forall2 in Em. exfalso.
    clear Hrun. induction Em as [|r j rs js Hr _ IH]; [destruct Hrow|].
    destruct Hrow as [->|Hrow]; [congruence | exact (IH Hrow)].
Qed.

End ReadingAsAWhole.

(** ** The attributes of a job *)

Lemma set_option_cases (row : MatrixRow) (job job' : JobsDoneJob)
    (key : string) (value : pyval) :
  set_option row job (key, value) = Ok job' ->
  job' = job \/ job' = setattr job (option_of_key key) (AVal value).
Proof.
  unfold set_option, option_of_key.
  destruct (PyStr.contains PyStr.colon key) eqn:Ec.
  - rewrite (index_last_last _ EmptyString) by apply split_not_nil.
    cbn [bind]. destruct (Match row _) as [[|]|e]; cbn [bind negb];
      intros [= <-]; auto.
  - rewrite (split_without_sep _ _ Ec). intros [= <-]. right. reflexivity.
Qed.

(** The loop over the items leaves alone what no key names. *)
Lemma set_options_frame (row : MatrixRow) (items : Dict.t pyval)
    (job job' : JobsDoneJob) (attribute : string) :
  set_options row items job = Ok job' ->
  ~ In attribute (map option_of_key (Dict.keys items)) ->
  getattr job' attribute = getattr job attribute.
Proof.
  revert job. induction items as [|[key value] items IH]; intros job Hrun Hno.
  - injection Hrun as <-. reflexivity.
  - unfold set_options in Hrun. cbn [foldM] in Hrun.
    destruct (set_option row job (key, value)) as [job1|e] eqn:E1; [|discriminate].
    cbn [bind] in Hrun. simpl in Hno.
    rewrite (IH job1 Hrun) by tauto.
    destruct (set_option_cases _ _ _ _ _ E1) as [->| ->]; [reflexivity|].
    apply get_set_other. tauto.
Qed.

(** The loop over the items takes no attribute away. *)
Lemma set_options_keeps (row : MatrixRow) (items : Dict.t pyval)
    (job job' : JobsDoneJob) (attribute : string) :
  set_options row items job = Ok job' ->
  getattr job attribute <> None -> getattr job' attribute <> None.
Proof.
  revert job. induction items as [|[key value] items IH]; intros job Hrun Hhas.
  - injection Hrun as <-. exact Hhas.
  - unfold set_options in Hrun. cbn [foldM] in Hrun.
    destruct (set_option row job (key, value)) as [job1|e] eqn:E1; [|discriminate].
    cbn [bind] in Hrun. apply (IH job1 Hrun).
    destruct (set_option_cases _ _ _ _ _ E1) as [->| ->]; [exact Hhas|].
    unfold getattr, setattr. rewrite get_set.
    destruct (String.eqb _ _); [discriminate | exact Hhas].
Qed.

(** How a job that was made was made. *)
Lemma create_job_made (lib : Library) (jd_data : Dict.t pyval)
    (repository : Repository) (row : MatrixRow) (job : JobsDoneJob) :
  create_job lib jd_data repository row = Ok job ->
  exists bindings,
    AsDict row = Ok bindings
    /\ ((jd_data = [] /\ job = row_job repository bindings)
        \/ (jd_data <> []
            /\ exists items,
                reread lib jd_data repository row = Ok (PDict items)
                /\ set_options row items (row_job repository bindings) = Ok job)).
Proof.
  unfold create_job. destruct (AsDict row) as [bindings|e]; [|discriminate].
  cbn [bind]. intros H. exists bindings. split; [reflexivity|].
  destruct jd_data as [|item jd_data]; cbn [truthy negb] in H.
  - left. injection H as <-. split; reflexivity.
  - right. split; [discriminate|].
    destruct (reread lib (item :: jd_data) repository row) as [formatted|e];
      [|discriminate].
    cbn [bind] in H. destruct formatted; try discriminate.
    eexists. split; [reflexivity | exact H].
Qed.

(** X14: every job that is made has all the attributes a reader of jobs may
    ask for: [repository], [matrix_row] and every option of the table, set
    or [None]; no key of the file can take one away. *)
Theorem X14_job_has_every_attribute :
  forall (lib : Library) (jd_data : Dict.t pyval) (repository : Repository)
         (row : MatrixRow) (job : JobsDoneJob),
    create_job lib jd_data repository row = Ok job ->
    getattr job "repository" <> None
    /\ getattr job "matrix_row" <> None
    /\ (forall option_name,
           Dict.get PARSEABLE_OPTIONS option_name <> None ->
           getattr job option_name <> None).
Proof.
  intros lib jd_data repository row job Hjob.
  destruct (create_job_made _ _ _ _ _ Hjob) as (bindings & _ & Hmade).
  assert (Hbase : getattr (row_job repository bindings) "repository" <> None
                  /\ getattr (row_job repository bindings) "matrix_row" <> None
                  /\ (forall option_name,
                         Dict.get PARSEABLE_OPTIONS option_name <> None ->
                         getattr (row_job repository bindings) option_name <> None)).
  { split; [discriminate|]. split; [discriminate|].
    intros o Ho. rewrite (row_job_options _ _ _ Ho). discriminate. }
  destruct Hmade as [[_ ->]|(_ & items & _ & Hrun)]; [exact Hbase|].
  destruct Hbase as (H1 & H2 & H3).
  split; [|split].
  - exact (set_options_keeps _ _ _ _ _ Hrun H1).
  - exact (set_options_keeps _ _ _ _ _ Hrun H2).
  - intros o Ho. exact (set_options_keeps _ _ _ _ _ Hrun (H3 o Ho)).
Qed.

(** X15: the re-read file changes on a job only the attributes its keys
    name.  An attribute that no key of the re-read file names is as
    [__init__] and the head of the loop left it; and when every key names an
    option of the table, the job keeps the repository it was made for and,
    as [matrix_row], the bindings of its row. *)
Theorem X15_job_keeps_what_no_key_names :
  forall (lib : Library) (jd_data : Dict.t pyval) (repository : Repository)
         (row : MatrixRow) (bindings : Dict.t string) (items : Dict.t pyval)
         (job : JobsDoneJob),
    jd_data <> [] ->
    AsDict row = Ok bindings ->
    reread lib jd_data repository row = Ok (PDict items) ->
    create_job lib jd_data repository row = Ok job ->
    (forall attribute,
        ~ In attribute (map option_of_key (Dict.keys items)) ->
        getattr job attribute = getattr (row_job repository bindings) attribute)
    /\ (Forall (fun key => Dict.get PARSEABLE_OPTIONS (option_of_key key) <> None)
          (Dict.keys items) ->
        getattr job "repository" = Some (ARepo repository)
        /\ getattr job "matrix_row" = Some (AVal (pydict_of bindings))).
Proof.
  intros lib jd_data repository row bindings items job Hdata Hdict Hread Hjob.
  rewrite (create_job_items lib jd_data repository row bindings items
             Hdata Hdict Hread) in Hjob.
  split.
  - intros attribute Hno. exact (set_options_frame _ _ _ _ _ Hjob Hno).
  - intros Htable. rewrite Forall_forall in Htable.
    assert (Hno : forall attribute,
               Dict.get PARSEABLE_OPTIONS attribute = None ->
               ~ In attribute (map option_of_key (Dict.keys items))).
    { intros attribute Hnone Hin. apply in_map_iff in Hin as (key & <- & Hkey).
      exact (Htable key Hkey Hnone). }
    split.
    + rewrite (set_options_frame _ _ _ _ _ Hjob (Hno "repository" eq_refl)).
      reflexivity.
    + rewrite (set_options_frame _ _ _ _ _ Hjob (Hno "matrix_row" eq_refl)).
      reflexivity.
Qed.

(** ** These statements at concrete inputs *)

Lemma X11_branch_filter_raises_witness :
  branch_accepted (library_of (PDict patterns_file)) patterns_file space
  = Raise TypeError
  /\ CreateFromYAML (library_of (PDict patterns_file))
       (Some "branch_patterns: ['.*', []]") space
     = Raise TypeError.
Proof.
  apply (X11_branch_filter_raises (library_of (PDict patterns_file))
           "branch_patterns: ['.*', []]" (PDict patterns_file) patterns_file
           space [".*"] (PList []) [] TypeError).
  - reflexivity.
  - reflexivity.
  - reflexivity.
  - reflexivity.
  - intros p _. eexists. reflexivity.
  - reflexivity.
Defined.

Lemma X12_top_level_not_a_mapping_witness :
  CreateFromYAML (library_of (PList [PStr "junit_patterns"]))
    (Some "- junit_patterns") space
  = Raise AttributeError.
Proof.
  apply (X12_top_level_not_a_mapping (library_of (PList [PStr "junit_patterns"]))
           "- junit_patterns" (PList [PStr "junit_patterns"]) space).
  - reflexivity.
  - reflexivity.
  - discriminate.
Defined.

Lemma X13_one_job_for_each_row_witness :
  (forall jobs,
      CreateFromYAML (library_of (PDict planets_file)) (Some "planets") space
      = Ok jobs ->
      (branch_accepted (library_of (PDict planets_file)) planets_file space
       = Ok false /\ jobs = [])
      \/ (branch_accepted (library_of (PDict planets_file)) planets_file space
          = Ok true
          /\ length jobs = combinations (Dict.values [("planet", ["earth"; "mars"])])
          /\ Forall2
               (fun row job =>
                  create_job (library_of (PDict planets_file)) planets_file space row
                  = Ok job)
               (map (row_of (Dict.keys [("planet", ["earth"; "mars"])]))
                  (lexicographic_product
                     (Dict.values [("planet", ["earth"; "mars"])])))
               jobs))
  /\ (forall row e,
         branch_accepted (library_of (PDict planets_file)) planets_file space
         = Ok true ->
         In row
           (map (row_of (Dict.keys [("planet", ["earth"; "mars"])]))
              (lexicographic_product (Dict.values [("planet", ["earth"; "mars"])]))) ->
         create_job (library_of (PDict planets_file)) planets_file space row
         = Raise e ->
         exists e',
           CreateFromYAML (library_of (PDict planets_file)) (Some "planets") space
           = Raise e').
Proof.
  apply (X13_one_job_for_each_row (library_of (PDict planets_file))
           "planets" (PDict planets_file) planets_file space
           [("planet", ["earth"; "mars"])]); reflexivity.
Defined.

Example two_planets_two_jobs :
  exists job_earth job_mars,
    CreateFromYAML (library_of (PDict planets_file)) (Some "planets") space
    = Ok [job_earth; job_mars]
    /\ getattr job_earth "junit_patterns" = Some (AVal (PList [PStr "x.xml"]))
    /\ getattr job_earth "matrix_row" = Some (AVal (PDict [("planet", PStr "earth")]))
    /\ getattr job_mars "junit_patterns" = Some (AVal PNone)
    /\ getattr job_mars "matrix_row" = Some (AVal (PDict [("planet", PStr "mars")])).
Proof. do 2 eexists. repeat split. Qed.

Lemma X14_job_has_every_attribute_witness :
  exists job,
    create_job (library_of (PDict planets_file)) planets_file space earth = Ok job
    /\ getattr job "repository" <> None
    /\ getattr job "matrix_row" <> None
    /\ (forall option_name,
           Dict.get PARSEABLE_OPTIONS option_name <> None ->
           getattr job option_name <> None).
Proof.
  eexists. split; [reflexivity|].
  apply (X14_job_has_every_attribute (library_of (PDict planets_file))
           planets_file space earth).
  reflexivity.
Defined.

Lemma X15_job_keeps_what_no_key_names_witness :
  exists job,
    create_job (library_of (PDict planets_file)) planets_file space earth = Ok job
    /\ (forall attribute,
           ~ In attribute (map option_of_key (Dict.keys planets_file)) ->
           getattr job attribute
           = getattr (row_job space [("planet", "earth")]) attribute)
    /\ (Forall (fun key => Dict.get PARSEABLE_OPTIONS (option_of_key key) <> None)
          (Dict.keys planets_file) ->
        getattr job "repository" = Some (ARepo space)
        /\ getattr job "matrix_row"
           = Some (AVal (pydict_of [("planet", "earth")]))).
Proof.
  eexists. split; [reflexivity|].
  apply (X15_job_keeps_what_no_key_names (library_of (PDict planets_file))
           planets_file space earth [("planet", "earth")] planets_file).
  - discriminate.
  - reflexivity.
  - reflexivity.
  - reflexivity.
Defined.

(** ** Rows of any matrix *)

Lemma Forall2_In_r {A B} (R : A -> B -> Prop) (l : list A) (l' : list B) (b : B) :
  Forall2 R l l' -> In b l' -> exists a, In a l /\ R a b.
Proof.
  induction 1 as [|x y l l' Hxy _ IH]; intros Hin; [destruct Hin|].
  destruct Hin as [<-|Hin].
  - exists x. split; [left; reflexivity | exact Hxy].
  - destruct (IH Hin) as (a & Ha & HR). exists a. split; [right|]; assumption.
Qed.

(** A row that [MatrixRow.__init__] builds has a value for each of its
    names. *)
Lemma MatrixRow_init_values (names : list string) (values : list pyval)
    (row : MatrixRow) :
  MatrixRow_init names values = Ok row ->
  forall variable subvalues,
    In (variable, subvalues) (row_dict row) -> subvalues <> [].
Proof.
  unfold MatrixRow_init.
  destruct (mapM _ values) as [lists|e] eqn:Em; [|discriminate].
  cbn [bind]. intros [= <-] variable subvalues Hin. cbn [row_dict] in Hin.
  apply In_update in Hin as [[]|Hin]. apply in_combine_r in Hin.
  apply mapM_Forall2 in Em.
  destruct (Forall2_In_r _ _ _ _ Em Hin) as (i & _ & Hi).
  destruct i; try discriminate Hi. cbn [as_str bind] in Hi.
  injection Hi as <-. apply split_not_nil.
Qed.

(** X17: [AsDict] takes the first value of each entry and cannot fail on a
    row of [CreateMatrixRows]: whatever the matrix holds, if the rows are
    returned then [AsDict] returns on each of them, so that making the job
    of a row never raises [IndexError]. *)
Theorem X17_AsDict_returns_on_rows :
  forall (matrix_dict : Dict.t pyval) (rows : list MatrixRow) (row : MatrixRow),
    CreateMatrixRows matrix_dict = Ok rows ->
    In row rows ->
    exists bindings,
      AsDict row = Ok bindings
      /\ forall variable,
           Dict.get bindings variable <> None
           <-> Dict.get (row_dict row) variable <> None.
Proof.
  intros matrix_dict rows row Hrows Hrow. unfold CreateMatrixRows in Hrows.
  destruct (mapM iter (Dict.values matrix_dict)) as [pools|e]; [|discriminate].
  cbn [bind] in Hrows. apply mapM_Forall2 in Hrows.
  destruct (Forall2_In_r _ _ _ _ Hrows Hrow) as (values & _ & Hinit).
  pose proof (MatrixRow_init_values _ _ _ Hinit) as Hne.
  eexists. split; [apply AsDict_first_values; exact Hne|].
  intros variable. rewrite get_of_pairs, <- map_rev, get_map_values.
  assert (Hrev : Dict.get (rev (row_dict row)) variable <> None
                 <-> Dict.get (row_dict row) variable <> None).
  { rewrite !get_None_iff. unfold Dict.keys. rewrite map_rev, <- in_rev. tauto. }
  rewrite <- Hrev. clear Hrev.
  destruct (Dict.get (rev (row_dict row)) variable); simpl;
    split; intros H; try discriminate; exfalso; apply H; reflexivity.
Qed.

Lemma X17_AsDict_returns_on_rows_witness :
  exists bindings,
    AsDict {| row_dict := [("planet", ["a"])] |} = Ok bindings
    /\ forall variable,
         Dict.get bindings variable <> None
         <-> Dict.get (row_dict {| row_dict := [("planet", ["a"])] |}) variable
             <> None.
Proof.
  apply (X17_AsDict_returns_on_rows [("planet", PStr "ab")]
           [ {| row_dict := [("planet", ["a"])] |};
             {| row_dict := [("planet", ["b"])] |} ]).
  - reflexivity.
  - left. reflexivity.
Defined.

(** X19: whenever [CreateMatrixRows] returns, for lists, strings or dicts
    as values alike, the number of rows is the product of the numbers of
    items the values yield. *)
Theorem X19_count_for_any_values :
  forall (matrix_dict : Dict.t pyval) (pools : list (list pyval))
         (rows : list MatrixRow),
    mapM iter (Dict.values matrix_dict) = Ok pools ->
    CreateMatrixRows matrix_dict = Ok rows ->
    length rows = combinations pools.
Proof.
  intros matrix_dict pools rows Hpools Hrows. unfold CreateMatrixRows in Hrows.
  rewrite Hpools in Hrows. cbn [bind] in Hrows.
  apply mapM_Forall2, Forall2_length in Hrows.
  rewrite <- Hrows, product_lexicographic. apply length_lexicographic_product.
Qed.

Lemma X19_count_for_any_values_witness :
  length (map (fun vs => row_of ["planet"; "moon"] vs)
            [["a"; "europa"]; ["a"; "io"]; ["b"; "europa"]; ["b"; "io"]])
  = combinations [[PStr "a"; PStr "b"]; [PStr "europa"; PStr "io"]].
Proof.
  apply (X19_count_for_any_values
           [("planet", PStr "ab");
            ("moon", PDict [("europa", PNone); ("io", PNone)])]).
  - reflexivity.
  - reflexivity.
Defined.

(** X18: the check sees the keys of a file and the types of its values and
    nothing else: two files with the same keys, in the same order, and
    values of the same types get the same verdict, down to the error. *)
Theorem X18_check_sees_shapes_only :
  forall items items' : Dict.t pyval,
    Dict.keys items = Dict.keys items' ->
    map type_of (Dict.values items) = map type_of (Dict.values items') ->
    check_options items = check_options items'.
Proof.
  induction items as [|[key value] items IH]; intros [|[key' value'] items'] Hk Ht;
    try discriminate; [reflexivity|].
  simpl in Hk, Ht. injection Hk as -> Hk. injection Ht as Ht0 Ht.
  rewrite !check_options_cons, Ht0, (IH items' Hk Ht). reflexivity.
Qed.

Lemma X18_check_sees_shapes_only_witness :
  check_options [("junit_patterns", PList [PStr "*.xml"]); ("matrix", PStr "x")]
  = check_options [("junit_patterns", PList [PDict []; PNone]); ("matrix", PStr "")].
Proof.
  apply X18_check_sees_shapes_only; reflexivity.
Defined.

(* ================================================================= *)
(** * The order of the file and the order of the dict *)

(** The hash of CPython 2.7 and the order of a small dict. *)
Example hash_of_a : Py2.string_hash "a" = 12416037344%Z.
Proof. reflexivity. Qed.

Example dict_of_a_b_c :
  Py2.dict_of [("a", 1); ("b", 2); ("c", 3)] = Some [("a", 1); ("c", 3); ("b", 2)].
Proof. reflexivity. Qed.

(** A dict that has grown once: the ten options of the table. *)
Example dict_of_the_options :
  option_map Dict.keys (Py2.dict_of PARSEABLE_OPTIONS)
  = Some ["description_regex"; "build_shell_commands"; "matrix"; "parameters";
          "branch_patterns"; "jsunit_patterns"; "junit_patterns";
          "notify_stash"; "build_batch_commands"; "boosttest_patterns"].
Proof. vm_compute. reflexivity. Qed.

(** C5 as the spec has it fails on a matrix that declares [moon] before
    [planet]: its dict yields [planet] first, whichever is put in first, so
    the second row is [earth] with [ganymede], where the lexicographic order
    of the declared variables has [europa] with [mars]. *)
Lemma C5_declared_order_counterexample :
  exists matrix_dict rows row declared_row,
    Py2.dict_of (matrix_of moon_then_planet) = Some matrix_dict
    /\ Py2.dict_of (rev (matrix_of moon_then_planet)) = Some matrix_dict
    /\ Dict.keys moon_then_planet = ["moon"; "planet"]
    /\ Dict.keys matrix_dict = ["planet"; "moon"]
    /\ CreateMatrixRows matrix_dict = Ok rows
    /\ nth_error rows 1 = Some row
    /\ Dict.get (row_dict row) "moon" = Some ["ganymede"]
    /\ Dict.get (row_dict row) "planet" = Some ["earth"]
    /\ nth_error
         (map (row_of (Dict.keys moon_then_planet))
            (lexicographic_product (Dict.values moon_then_planet))) 1
       = Some declared_row
    /\ Dict.get (row_dict declared_row) "moon" = Some ["europa"]
    /\ Dict.get (row_dict declared_row) "planet" = Some ["mars"].
Proof.
  do 4 eexists.
  split; [vm_compute; reflexivity|].
  split; [vm_compute; reflexivity|].
  repeat split; reflexivity.
Qed.

(** C9 as the spec has it fails on a file that has the option for [mars]
    before the option for every row: both keys apply to the row [mars], the
    dict yields the key the file has first last, whether the keys are put in
    as the file has them, the other way round or sorted, and the job is left
    with the value of that key, not with the value of the key the file has
    later. *)
Lemma C9_written_order_counterexample :
  exists items job,
    Py2.dict_of mars_first_file = Some items
    /\ Py2.dict_of (rev mars_first_file) = Some items
    /\ Py2.dict_of items = Some items
    /\ Dict.keys mars_first_file
       = ["planet-mars:junit_patterns"; "junit_patterns"; "matrix"]
    /\ Dict.keys items
       = ["junit_patterns"; "matrix"; "planet-mars:junit_patterns"]
    /\ key_applies mars "planet-mars:junit_patterns"
    /\ key_applies mars "junit_patterns"
    /\ option_of_key "planet-mars:junit_patterns" = "junit_patterns"
    /\ option_of_key "junit_patterns" = "junit_patterns"
    /\ set_options mars items JobsDoneJob_init = Ok job
    /\ getattr job "junit_patterns" = Some (AVal (PList [PStr "mars.xml"]))
    /\ Dict.get mars_first_file "junit_patterns" = Some (PList [PStr "all.xml"]).
Proof.
  do 2 eexists.
  split; [vm_compute; reflexivity|].
  split; [vm_compute; reflexivity|].
  split; [vm_compute; reflexivity|].
  split; [reflexivity|]. split; [reflexivity|].
  split.
  { repeat constructor. exists "planet", "mars", ["mars"].
    repeat split. left. reflexivity. }
  split; [constructor|].
  repeat split; reflexivity.
Qed.
